(** * ExpiryTracker: date status, realtime reconciliation, import and
      notification scan

    Shallow embedding of the client-side core of the tracker:
    - [utils.js]: [daysUntilExpiry], [getExpiryStatus];
    - [dashboard.js]: [loadItems], [handleRealtimeChange], [handleImport];
    - [notifications.js]: [showNotification], [checkExpiringItems].

    Module-level [let] variables of the scripts ([items], [currentUser],
    [notificationPermission]) become fields of explicit state records; the
    host capabilities the scripts call (the clock, the local time zone, the
    toast area, the remote store, the Notification constructor) become
    parameters and logs. *)

From Stdlib Require Import ZArith Lia Bool String Ascii List OrderedTypeEx.
From stdpp Require Import base numbers list strings pretty sorting.

Local Open Scope Z_scope.
Local Set Warnings "-register-all".

(** ** JavaScript [Date] time values

    A [Date] holds a time value: milliseconds since the epoch, UTC.  The
    names below are the abstract operations of ECMAScript (sec. 21.4.1).
    The host's time zone enters through [LocalTZA t isUTC], the offset of
    local time from UTC in milliseconds, queried either at a UTC instant
    ([isUTC = true]) or at a local wall-clock value ([isUTC = false]). *)
Module JsDate.

Definition msPerDay : Z := 1000 * 60 * 60 * 24.

Definition Zone : Type := Z -> bool -> Z.

(** [Day(t)] = floor(t / msPerDay). *)
Definition Day (t : Z) : Z := t `div` msPerDay.

(** [MakeDate(day, time)]. *)
Definition MakeDate (day time : Z) : Z := day * msPerDay + time.

Definition LocalTime (LocalTZA : Zone) (t : Z) : Z := t + LocalTZA t true.

Definition UTC (LocalTZA : Zone) (t : Z) : Z := t - LocalTZA t false.

(** [d.setHours(0, 0, 0, 0)]: the new time value of [d];
    [MakeTime(0,0,0,0)] is [0]. *)
Definition setHours0 (LocalTZA : Zone) (t : Z) : Z :=
  UTC LocalTZA (MakeDate (Day (LocalTime LocalTZA t)) 0).

(** [Math.ceil(a / b)] for integral [a] and positive [b]
    ([-0] and [0] are not told apart by [<], [===] or [<=]). *)
Definition Math_ceil_div (a b : Z) : Z := - ((- a) `div` b).

(** [new Date(s)] for a date-only string [YYYY-MM-DD], the form of a
    [DATE] column: UTC midnight of that day.  The string is modelled by
    its day number since the epoch. *)
Definition parseDateOnly (day : Z) : Z := MakeDate day 0.

(** A zone whose offset never changes (no daylight saving). *)
Definition fixedZone (offset : Z) : Zone := fun _ _ => offset.

(** A zone with one forward clock change: offset [before] up to the UTC
    instant [at], offset [after] from then on.  Local values the change
    skips are read with the offset before the change (ECMAScript,
    LocalTZA with isUTC false). *)
Definition springForwardZone (at_utc before after : Z) : Zone :=
  fun t isUTC =>
    if isUTC
    then (if t <? at_utc then before else after)
    else (if t <? at_utc + after then before else after).

End JsDate.

(** ** utils.js *)
Module Utils.
Import JsDate.

Section WithZone.
Variable LocalTZA : Zone.

(** [daysUntilExpiry(expiryDate)]; [now] is the time value of
    [new Date()], [expiryDate] the time value of
    [new Date(expiryDate)]. *)
Definition daysUntilExpiry (now expiryDate : Z) : Z :=
  let today := setHours0 LocalTZA now in
  let expiry := setHours0 LocalTZA expiryDate in
  let diffTime := expiry - today in
  let diffDays := Math_ceil_div diffTime (1000 * 60 * 60 * 24) in
  diffDays.

Record ExpiryStatus : Type := mkStatus
  { status : string; label : string; class : string }.

(** [getExpiryStatus(expiryDate)]. *)
Definition getExpiryStatus (now expiryDate : Z) : ExpiryStatus :=
  let days := daysUntilExpiry now expiryDate in
  if days <? 0 then
    mkStatus "expired" "Expired" "status-expired"
  else if days =? 0 then
    mkStatus "today" "Expires Today" "status-today"
  else if days <=? 7 then
    mkStatus "soon" (pretty days +:+ " days left") "status-soon"
  else if days <=? 30 then
    mkStatus "warning" (pretty days +:+ " days left") "status-warning"
  else
    mkStatus "good" (pretty days +:+ " days left") "status-good".

End WithZone.

(** The spec's tier names for the [status] strings of the code. *)
Inductive Tier : Type := EXPIRED | DUE_TODAY | SOON | UPCOMING | OK.

Definition tier_of_status (s : string) : option Tier :=
  if decide (s = "expired") then Some EXPIRED
  else if decide (s = "today") then Some DUE_TODAY
  else if decide (s = "soon") then Some SOON
  else if decide (s = "warning") then Some UPCOMING
  else if decide (s = "good") then Some OK
  else None.

Definition classify_tier (LocalTZA : Zone) (now expiryDate : Z) : option Tier :=
  tier_of_status (status (getExpiryStatus LocalTZA now expiryDate)).

End Utils.

(** ** Values produced by [JSON.parse], and [undefined]

    Numbers are the integral ones ([quantity] is an [INTEGER] column). *)
Module Js.

Inductive Value : Type :=
| JUndefined
| JNull
| JBool (b : bool)
| JNum (n : Z)
| JStr (s : string)
| JArr (elems : list Value)
| JObj (props : list (string * Value)).

(** [Array.isArray(v)]. *)
Definition Array_isArray (v : Value) : bool :=
  match v with JArr _ => true | _ => false end.

(** ToBoolean. *)
Definition truthy (v : Value) : bool :=
  match v with
  | JUndefined | JNull => false
  | JBool b => b
  | JNum n => negb (n =? 0)
  | JStr s => negb (String.eqb s "")
  | JArr _ | JObj _ => true
  end.

(** [a || b]. *)
Definition or (a b : Value) : Value := if truthy a then a else b.

Fixpoint own_prop (k : string) (props : list (string * Value)) : Value :=
  match props with
  | [] => JUndefined
  | (k', v) :: rest => if String.eqb k k' then v else own_prop k rest
  end.

(** [v.k] for one of the keys read by the import ([name], [category],
    [quantity], [expiry_date], [notes]), none of which is inherited from
    a prototype: reading from [null] or [undefined] throws a TypeError
    ([None]); primitives and arrays give [undefined]; an object gives
    its own property (keys of a parsed object are distinct). *)
Definition get (v : Value) (k : string) : option Value :=
  match v with
  | JUndefined | JNull => None
  | JObj props => Some (own_prop k props)
  | _ => Some JUndefined
  end.

End Js.

(** ** dashboard.js *)
Module Dashboard.

(** A row of [expiry_items]. *)
Record Item : Type := mkItem
  { id : string;
    user_id : string;
    name : string;
    category : option string;
    expiry_date : Z;          (* DATE, as a day number *)
    image_url : option string;
    notes : option string;
    quantity : Z;
    created_at : Z;
    updated_at : Z }.

Record User : Type := mkUser { uid : string; email : string }.

(** A realtime change: [eventType] with the record it carries
    ([payload.new] for INSERT and UPDATE; of [payload.old] only the
    [id] is read). *)
Inductive Payload : Type :=
| INSERT (newRecord : Item)
| UPDATE (newRecord : Item)
| DELETE (oldRecord_id : string).

(** The record built for one imported element. *)
Record ImportRow : Type := mkImportRow
  { row_name : Js.Value;
    row_category : Js.Value;
    row_quantity : Js.Value;
    row_expiry_date : Js.Value;
    row_notes : Js.Value;
    row_user_id : string }.

(** Requests to write that were sent to the remote store. *)
Inductive RemoteCall : Type :=
| RemoteInsert (table : string) (rows : list ImportRow).

(** Module state of the page, with the toasts shown and the remote
    writes issued so far. *)
Record Page : Type := mkPage
  { currentUser : User;
    items : list Item;
    toasts : list (string * string);
    remote_calls : list RemoteCall }.

Definition init (u : User) : Page := mkPage u [] [] [].

Definition set_items (l : list Item) (st : Page) : Page :=
  mkPage (currentUser st) l (toasts st) (remote_calls st).

(** [showToast(message, type)]. *)
Definition showToast (message type : string) (st : Page) : Page :=
  mkPage (currentUser st) (items st) (toasts st ++ [(message, type)])
         (remote_calls st).

Definition send (c : RemoteCall) (st : Page) : Page :=
  mkPage (currentUser st) (items st) (toasts st) (remote_calls st ++ [c]).

(** Outcome of the [select] issued by [loadItems]: [{data, error}]. *)
Inductive SelectResult : Type :=
| SelectData (data : option (list Item))
| SelectError (message : string).

(** [loadItems()], given the response of the remote query
    (ordered by [expiry_date] ascending on the server). *)
Definition loadItems (res : SelectResult) (st : Page) : Page :=
  match res with
  | SelectError _ => showToast "Failed to load items" "error" st
  | SelectData data => set_items (default [] data) st
  end.

(** [arr.findIndex(p)]: first index satisfying [p], or [-1]. *)
Fixpoint findIndex_from {A} (p : A -> bool) (l : list A) (i : Z) : Z :=
  match l with
  | [] => -1
  | x :: rest => if p x then i else findIndex_from p rest (i + 1)
  end.

Definition findIndex {A} (p : A -> bool) (l : list A) : Z :=
  findIndex_from p l 0.

(** [handleRealtimeChange(payload)].  [renderItems] and [updateCounts]
    only read [items] and write the document. *)
Definition handleRealtimeChange (payload : Payload) (st : Page) : Page :=
  match payload with
  | INSERT newRecord =>
      showToast "New item added" "success"
        (set_items (items st ++ [newRecord]) st)
  | UPDATE newRecord =>
      let updateIndex :=
        findIndex (fun item => String.eqb (id item) (id newRecord)) (items st) in
      if negb (updateIndex =? -1) then
        showToast "Item updated" "info"
          (set_items (<[Z.to_nat updateIndex := newRecord]> (items st)) st)
      else st
  | DELETE oldRecord_id =>
      showToast "Item deleted" "info"
        (set_items (filter (fun item => id item <> oldRecord_id) (items st)) st)
  end.

(** *** Import: a [try]/[catch] block over the page state *)

(** A computation either returns or throws, and may change the page
    before doing so. *)
Definition Try (A : Type) : Type := Page -> (string + A) * Page.

Definition throw {A} (msg : string) : Try A := fun st => (inl msg, st).
Definition effect (f : Page -> Page) : Try unit := fun st => (inr tt, f st).
Definition get_state : Try Page := fun st => (inr st, st).

#[export] Instance Try_ret : MRet Try := fun A a st => (inr a, st).
#[export] Instance Try_bind : MBind Try := fun A B k m st =>
  match m st with
  | (inl e, st') => (inl e, st')
  | (inr a, st') => k a st'
  end.

(** [try { body } catch (error) { handler }]. *)
Definition try_catch (body : Try unit) (handler : string -> Page -> Page)
  : Page -> Page :=
  fun st => match body st with
            | (inl e, st') => handler e st'
            | (inr _, st') => st'
            end.

(** The arrow function mapped over [importedItems]. *)
Definition toInsert (u : User) (item : Js.Value) : option ImportRow :=
  n ← Js.get item "name";
  c ← Js.get item "category";
  q ← Js.get item "quantity";
  e ← Js.get item "expiry_date";
  t ← Js.get item "notes";
  Some (mkImportRow n c (Js.or q (Js.JNum 1)) e t (uid u)).

(** [importedItems.map(...)]; a throwing element aborts the map. *)
Definition map_toInsert (u : User) (elems : list Js.Value) : Try (list ImportRow) :=
  match mapM (toInsert u) elems with
  | Some rows => mret rows
  | None => throw "TypeError"
  end.

(** [handleImport(e)].  [file] is [e.target.files[0]] with the outcome of
    [JSON.parse(await file.text())] ([None] when parsing throws);
    [insert_error] is the [error] of the remote insert's response. *)
Definition handleImport (file : option (option Js.Value))
    (insert_error : option string) (st : Page) : Page :=
  match file with
  | None => st
  | Some parsed =>
      try_catch
        (importedItems ← match parsed with
                         | Some v => mret v
                         | None => throw "SyntaxError"
                         end;
         (if negb (Js.Array_isArray importedItems)
          then throw "Invalid data format" else mret tt) ;;
         cur ← get_state;
         itemsToInsert ← map_toInsert (currentUser cur)
                           match importedItems with
                           | Js.JArr elems => elems
                           | _ => []
                           end;
         effect (send (RemoteInsert "expiry_items" itemsToInsert)) ;;
         match insert_error with
         | Some e => throw e
         | None => mret tt
         end ;;
         effect (showToast
                   ("Imported " +:+ pretty (Z.of_nat (length itemsToInsert))
                      +:+ " items successfully") "success"))
        (fun _ => showToast "Failed to import data" "error")
        st
  end.

End Dashboard.

(** ** notifications.js *)
Module Notifications.
Import JsDate Utils Dashboard.

Inductive Permission : Type := default | granted | denied.

(** The arguments of [new Notification(title, options)]. *)
Record Notification : Type := mkNotification
  { title : string;
    icon : string;
    badge : string;
    vibrate : list Z;
    body : string;
    tag : string;
    requireInteraction : bool }.

(** [notificationPermission], and the notifications constructed. *)
Record Notifier : Type := mkNotifier
  { notificationPermission : Permission;
    shown : list Notification }.

(** [showNotification(title, options)]. *)
Definition showNotification (title body tag : string)
    (requireInteraction : bool) (st : Notifier) : Notifier :=
  match notificationPermission st with
  | granted =>
      mkNotifier (notificationPermission st)
        (shown st ++ [mkNotification title "/icon.png" "/badge.png"
                        [200; 100; 200] body tag requireInteraction])
  | _ => st
  end.

Section WithZone.
Variable LocalTZA : Zone.

(** The callback of [items.forEach]; [now] is the clock reading of the
    [daysUntilExpiry] call made for this item. *)
Definition notifyItem (now : Z) (item : Item) (st : Notifier) : Notifier :=
  let days := daysUntilExpiry LocalTZA now (parseDateOnly (expiry_date item)) in
  if days =? 0 then
    showNotification "Item Expiring Today!"
      (name item +:+ " expires today!") ("expiry-" +:+ id item) true st
  else if days =? 3 then
    showNotification "Item Expiring Soon"
      (name item +:+ " expires in 3 days") ("expiry-" +:+ id item) false st
  else if days =? 7 then
    showNotification "Upcoming Expiry"
      (name item +:+ " expires in 1 week") ("expiry-" +:+ id item) false st
  else st.

(** [items.forEach(...)]; [clock k] is the time value [new Date()]
    yields while the element at index [k] is visited. *)
Fixpoint forEach_from (clock : nat -> Z) (k : nat) (rows : list Item)
    (st : Notifier) : Notifier :=
  match rows with
  | [] => st
  | item :: rest =>
      forEach_from clock (S k) rest (notifyItem (clock k) item st)
  end.

(** [checkExpiringItems()]: one scan.  [user] is the signed-in user,
    [res] the response of the select; a thrown error is caught and
    only logged to the console.  The [today] the function computes before
    the loop is never read. *)
Definition checkExpiringItems (user : option User) (res : SelectResult)
    (clock : nat -> Z) (st : Notifier) : Notifier :=
  match user with
  | None => st
  | Some _ =>
      match res with
      | SelectError _ => st
      | SelectData None => st
      | SelectData (Some rows) => forEach_from clock 0 rows st
      end
  end.

End WithZone.

End Notifications.

Import JsDate Utils Dashboard Notifications.

(** ** Vocabulary of the properties *)

(** Number of items of the snapshot that carry the id [x]. *)
Definition count_id (x : string) (l : list Item) : nat :=
  length (filter (fun item => id item = x) l).

Definition at_most_one_per_id (l : list Item) : Prop :=
  forall x, (count_id x l <= 1)%nat.

(** The order of the snapshot: [expiry_date] ascending, ties by [id]. *)
Definition item_leb (a b : Item) : bool :=
  (expiry_date a <? expiry_date b)
  || ((expiry_date a =? expiry_date b) && String.leb (id a) (id b)).

Fixpoint is_sorted (l : list Item) : bool :=
  match l with
  | [] => true
  | a :: rest =>
      match rest with
      | [] => true
      | b :: _ => item_leb a b && is_sorted rest
      end
  end.

(** Operations on the item collection in the order they are applied. *)
Inductive Op : Type :=
| Reload (res : SelectResult)
| Feed (payload : Payload).

Definition step (op : Op) (st : Page) : Page :=
  match op with
  | Reload res => loadItems res st
  | Feed payload => handleRealtimeChange payload st
  end.

Definition run (ops : list Op) (st : Page) : Page :=
  fold_left (fun st op => step op st) ops st.

(** An operation that cannot bring in a second item for an id: a load whose
    rows have distinct ids, an INSERT whose id the store does not hold. *)
Definition brings_no_duplicate (op : Op) (st : Page) : Prop :=
  match op with
  | Reload (SelectData (Some rows)) => NoDup (id <$> rows)
  | Feed (INSERT newRecord) => count_id (id newRecord) (items st) = 0%nat
  | _ => True
  end.

Fixpoint duplicate_free_run (ops : list Op) (st : Page) : Prop :=
  match ops with
  | [] => True
  | op :: rest => brings_no_duplicate op st /\ duplicate_free_run rest (step op st)
  end.

(** The threshold an alert was raised for, read off its title. *)
Definition title_threshold (t : string) : option Z :=
  if String.eqb t "Item Expiring Today!" then Some 0
  else if String.eqb t "Item Expiring Soon" then Some 3
  else if String.eqb t "Upcoming Expiry" then Some 7
  else None.

Definition alert_threshold (n : Notification) : option Z :=
  title_threshold (title n).

Definition is_alert_for (x : string) (threshold : Z) (n : Notification) : bool :=
  String.eqb (tag n) ("expiry-" +:+ x)
  && bool_decide (alert_threshold n = Some threshold).

(** Number of alerts emitted for the pair (item id, threshold). *)
Definition count_alerts (x : string) (threshold : Z) (l : list Notification) : nat :=
  length (List.filter (is_alert_for x threshold) l).

(** Whether visiting [item], whose day count is [days], raises the alert
    of the pair ([x], [threshold]) under permission [perm]. *)
Definition fires (perm : Permission) (days : Z) (item : Item)
    (x : string) (threshold : Z) : bool :=
  match perm with
  | granted =>
      String.eqb (id item) x && (days =? threshold)
      && ((threshold =? 0) || (threshold =? 3) || (threshold =? 7))
  | _ => false
  end.

(** An element of an imported array that is a record (a JSON object). *)
Definition is_record (v : Js.Value) : Prop := exists props, v = Js.JObj props.

(** A record without a [quantity] field. *)
Definition lacks_quantity (v : Js.Value) : Prop :=
  exists props, v = Js.JObj props /\ Js.own_prop "quantity" props = Js.JUndefined.

(** Concrete data used by the examples below. *)
Definition berlin : Zone :=
  springForwardZone (19813 * msPerDay + 3600000) 3600000 7200000.

Definition alice : User := mkUser "u1" "alice@example.org".

Definition milk (day : Z) : Item :=
  mkItem "a" "u1" "Milk" None day None None 1 0 0.

Definition eggs (day : Z) : Item :=
  mkItem "b" "u1" "Eggs" (Some "Dairy") day None None 12 0 0.

(** ** The event handler as a transformer of the list *)

(** [items[i] = newRecord] at the first [i] whose item has the id of
    [newRecord]; the list as it is when there is none. *)
Fixpoint update_first (newRecord : Item) (l : list Item) : list Item :=
  match l with
  | [] => []
  | item :: rest =>
      if String.eqb (id item) (id newRecord) then newRecord :: rest
      else item :: update_first newRecord rest
  end.

Definition apply_items (payload : Payload) (l : list Item) : list Item :=
  match payload with
  | INSERT newRecord => l ++ [newRecord]
  | UPDATE newRecord => update_first newRecord l
  | DELETE x => filter (fun item => id item <> x) l
  end.

(** The id an event is about. *)
Definition target (payload : Payload) : string :=
  match payload with
  | INSERT newRecord => id newRecord
  | UPDATE newRecord => id newRecord
  | DELETE x => x
  end.

Definition is_insert (payload : Payload) : bool :=
  match payload with INSERT _ => true | _ => false end.

(** ** dashboard.js and profile.js: filtered views and counters *)
Module Views.

Section WithZone.
Variable LocalTZA : Zone.

(** The arrow function of the "soon" filter and counter:
    [days >= 0 && days <= 7]; [now] is the clock reading of its
    [daysUntilExpiry] call. *)
Definition isSoon (now : Z) (item : Item) : bool :=
  let days := daysUntilExpiry LocalTZA now (parseDateOnly (expiry_date item)) in
  (days >=? 0) && (days <=? 7).

(** The arrow function of the "expired" filter and counter. *)
Definition isExpired (now : Z) (item : Item) : bool :=
  daysUntilExpiry LocalTZA now (parseDateOnly (expiry_date item)) <? 0.

(** [l.filter(p)] for a [p] that reads the clock: the element at
    position [j] of [l] is tested at the reading [clock (k + j)]. *)
Fixpoint filter_reading (clock : nat -> Z) (k : nat) (p : Z -> Item -> bool)
    (l : list Item) : list Item :=
  match l with
  | [] => []
  | item :: rest =>
      if p (clock k) item then item :: filter_reading clock (S k) p rest
      else filter_reading clock (S k) p rest
  end.

(** [filteredItems] of [renderItems()], for the value of
    [currentFilter]. *)
Definition filteredItems (currentFilter : string) (clock : nat -> Z)
    (items : list Item) : list Item :=
  if String.eqb currentFilter "soon" then filter_reading clock 0 isSoon items
  else if String.eqb currentFilter "expired"
       then filter_reading clock 0 isExpired items
       else items.

(** One card of the grid: the item and the badge [createItemCard] gives
    it. *)
Record Card : Type := mkCard { card_item : Item; card_badge : ExpiryStatus }.

(** [filteredItems.map(item => createItemCard(item))], the clock being
    read once more for every card, after the [k] readings made before. *)
Fixpoint cards_from (clock : nat -> Z) (k : nat) (l : list Item) : list Card :=
  match l with
  | [] => []
  | item :: rest =>
      mkCard item
        (getExpiryStatus LocalTZA (clock k) (parseDateOnly (expiry_date item)))
      :: cards_from clock (S k) rest
  end.

(** What [renderItems()] puts on the page: the empty-state panel, or the
    grid of cards. *)
Inductive Rendered : Type :=
| EmptyState
| Grid (cards : list Card).

Definition readings (currentFilter : string) (items : list Item) : nat :=
  if String.eqb currentFilter "soon" then length items
  else if String.eqb currentFilter "expired" then length items
  else 0%nat.

(** [renderItems()]. *)
Definition renderItems (currentFilter : string) (clock : nat -> Z)
    (items : list Item) : Rendered :=
  let filtered := filteredItems currentFilter clock items in
  if (length filtered =? 0)%nat then EmptyState
  else Grid (cards_from clock (readings currentFilter items) filtered).

Record Counts : Type := mkCounts
  { allCount : nat; soonCount : nat; expiredCount : nat }.

(** [updateCounts()]: the three numbers written to the sidebar; the
    "soon" pass over [items] reads the clock first, the "expired" pass
    after it. *)
Definition updateCounts (clock : nat -> Z) (items : list Item) : Counts :=
  mkCounts (length items)
    (length (filter_reading clock 0 isSoon items))
    (length (filter_reading clock (length items) isExpired items)).

(** [loadStats()] of the profile page: the numbers shown after the call,
    [shown] being those shown before (kept when the select fails or
    delivers no array). *)
Definition loadStats (res : SelectResult) (clock : nat -> Z) (shown : Counts)
    : Counts :=
  match res with
  | SelectError _ => shown
  | SelectData None => shown
  | SelectData (Some rows) =>
      mkCounts (length rows)
        (length (filter_reading clock 0 isSoon rows))
        (length (filter_reading clock (length rows) isExpired rows))
  end.

(** The [status] and [isExpired] fields of a row of the exported table
    ([exportData()]). *)
Definition exportStatus (now : Z) (item : Item) : string * bool :=
  let days := daysUntilExpiry LocalTZA now (parseDateOnly (expiry_date item)) in
  let status :=
    if days <? 0 then "Expired"
    else if days =? 0 then "Today"
    else if days <=? 7 then pretty days +:+ " days"
    else pretty days +:+ " days" in
  let isExpired := days <? 0 in
  (status, isExpired).

(** All readings of the clock fall on one local day. *)
Definition same_day (clock : nat -> Z) : Prop :=
  forall j k, setHours0 LocalTZA (clock j) = setHours0 LocalTZA (clock k).

End WithZone.

End Views.

(** ** notifications.js: permission and timers *)
Module Scheduling.

(** What the page sees of the browser: whether [Notification] exists, the
    value of [Notification.permission], and the value
    [Notification.requestPermission()] resolves to when asked. *)
Record Browser : Type := mkBrowser
  { supported : bool;
    permission : Permission;
    answer : Permission }.

(** [requestNotificationPermission()]: the value returned and the module
    state after the call. *)
Definition requestNotificationPermission (b : Browser) (st : Notifier)
    : bool * Notifier :=
  if negb (supported b) then (false, st)
  else
    match permission b with
    | granted => (true, mkNotifier granted (shown st))
    | denied => (false, st)
    | default =>
        (match answer b with granted => true | _ => false end,
         mkNotifier (answer b) (shown st))
    end.

(** [getNotificationStatus()]; [None] stands for ['unsupported']. *)
Definition getNotificationStatus (b : Browser) : option Permission :=
  if negb (supported b) then None else Some (permission b).

(** [TimeWithinDay(t)]. *)
Definition TimeWithinDay (t : Z) : Z := t `mod` msPerDay.

(** [d.setHours(9, 0, 0, 0)]: the new time value of [d]. *)
Definition setHours9 (LocalTZA : Zone) (t : Z) : Z :=
  UTC LocalTZA (MakeDate (Day (LocalTime LocalTZA t)) (9 * 3600000)).

(** [d.setDate(d.getDate() + 1)]: [MakeDay] of the next day of the month
    is the day after [Day] of the local time; the time within the day is
    kept. *)
Definition setDate_next (LocalTZA : Zone) (t : Z) : Z :=
  let local := LocalTime LocalTZA t in
  UTC LocalTZA (MakeDate (Day local + 1) (TimeWithinDay local)).

(** [timeUntilCheck] of [scheduleDailyCheck()]; [now] and [created] are
    the time values of its two [new Date()], in that order. *)
Definition timeUntilCheck (LocalTZA : Zone) (now created : Z) : Z :=
  let scheduledTime := setHours9 LocalTZA created in
  let scheduledTime :=
    if now >? scheduledTime then setDate_next LocalTZA scheduledTime
    else scheduledTime in
  scheduledTime - now.

(** The timers [initNotifications()] leaves running: the period of the
    repeated check, and the delay and period of the daily check. *)
Record Timers : Type := mkTimers
  { check_every : Z;
    daily_after : Z;
    daily_every : Z }.

(** [initNotifications()]: the module state after the call and the timers
    set.  [user], [res] and [clock] are those of the immediate
    [checkExpiringItems()]; [now] and [created] those of
    [scheduleDailyCheck()]. *)
Definition initNotifications (LocalTZA : Zone) (b : Browser)
    (user : option User) (res : SelectResult) (clock : nat -> Z)
    (now created : Z) (st : Notifier) : Notifier * option Timers :=
  let '(is_granted, st1) := requestNotificationPermission b st in
  if is_granted
  then (checkExpiringItems LocalTZA user res clock st1,
        Some (mkTimers (6 * 60 * 60 * 1000)
                (timeUntilCheck LocalTZA now created)
                (24 * 60 * 60 * 1000)))
  else (st1, None).

End Scheduling.

(** ** Text typed into forms: sequences of UTF-16 code units *)
Module Text.

Definition units (s : string) : list N :=
  N_of_ascii <$> list_ascii_of_string s.

Definition in_range (lo hi c : N) : bool := ((lo <=? c) && (c <=? hi))%N.

(** [a-z], [A-Z], [0-9]. *)
Definition isLower (c : N) : bool := in_range 97 122 c.
Definition isUpper (c : N) : bool := in_range 65 90 c.
Definition isDigit (c : N) : bool := in_range 48 57 c.

(** [\s], also the characters [trim()] removes: white space and line
    terminators. *)
Definition isSpace (c : N) : bool :=
  in_range 9 13 c || (c =? 32)%N || (c =? 160)%N || (c =? 5760)%N
  || in_range 8192 8202 c || (c =? 8232)%N || (c =? 8233)%N
  || (c =? 8239)%N || (c =? 8287)%N || (c =? 12288)%N || (c =? 65279)%N.

Fixpoint drop_while (p : N -> bool) (s : list N) : list N :=
  match s with
  | [] => []
  | c :: rest => if p c then drop_while p rest else s
  end.

(** [s.trim()]. *)
Definition trim (s : list N) : list N :=
  rev (drop_while isSpace (rev (drop_while isSpace s))).

End Text.

(** ** Regular expressions, as far as utils.js uses them

    [test] of an expression written between [^] and [$], without flags:
    the whole text has to belong to the language of the expression. *)
Module Regex.

Inductive Regex : Type :=
| Void
| Eps
| Cls (p : N -> bool)          (* one code unit of a class *)
| Cat (r s : Regex)
| Alt (r s : Regex)
| Star (r : Regex).

(** [r+]. *)
Definition Plus (r : Regex) : Regex := Cat r (Star r).

Fixpoint nullable (r : Regex) : bool :=
  match r with
  | Void => false
  | Eps => true
  | Cls _ => false
  | Cat r s => nullable r && nullable s
  | Alt r s => nullable r || nullable s
  | Star _ => true
  end.

Fixpoint deriv (c : N) (r : Regex) : Regex :=
  match r with
  | Void => Void
  | Eps => Void
  | Cls p => if p c then Eps else Void
  | Cat r s =>
      if nullable r then Alt (Cat (deriv c r) s) (deriv c s)
      else Cat (deriv c r) s
  | Alt r s => Alt (deriv c r) (deriv c s)
  | Star r => Cat (deriv c r) (Star r)
  end.

Fixpoint test (r : Regex) (s : list N) : bool :=
  match s with
  | [] => nullable r
  | c :: rest => test (deriv c r) rest
  end.

(** The texts an expression stands for. *)
Inductive lang : Regex -> list N -> Prop :=
| lang_eps : lang Eps []
| lang_cls p c : p c = true -> lang (Cls p) [c]
| lang_cat r s u v : lang r u -> lang s v -> lang (Cat r s) (u ++ v)
| lang_alt_l r s u : lang r u -> lang (Alt r s) u
| lang_alt_r r s u : lang s u -> lang (Alt r s) u
| lang_star_nil r : lang (Star r) []
| lang_star_app r u v : lang r u -> lang (Star r) v -> lang (Star r) (u ++ v).

End Regex.

(** ** utils.js: checks on what the forms receive *)
Module Checks.
Import Text Regex.

(** [[^\s@]]. *)
Definition notSpaceAt (c : N) : bool := negb (isSpace c || (c =? 64)%N).

(** [/^[^\s@]+@[^\s@]+\.[^\s@]+$/]. *)
Definition emailRegex : Regex :=
  Cat (Plus (Cls notSpaceAt))
    (Cat (Cls (fun c => (c =? 64)%N))
       (Cat (Plus (Cls notSpaceAt))
          (Cat (Cls (fun c => (c =? 46)%N))
             (Plus (Cls notSpaceAt))))).

(** [isValidEmail(email)]. *)
Definition isValidEmail (email : list N) : bool := test emailRegex email.

Record Strength : Type := mkStrength
  { level : string; strength_label : string; strength_class : string }.

(** [getPasswordStrength(password)]; [/[a-z]/.test(password)] and the
    like hold when some code unit is of the class. *)
Definition getPasswordStrength (password : list N) : Strength :=
  let strength := 0 in
  let strength := if (8 <=? length password)%nat then strength + 1 else strength in
  let strength := if (12 <=? length password)%nat then strength + 1 else strength in
  let strength := if existsb isLower password then strength + 1 else strength in
  let strength := if existsb isUpper password then strength + 1 else strength in
  let strength := if existsb isDigit password then strength + 1 else strength in
  let strength :=
    if existsb (fun c => negb (isLower c || isUpper c || isDigit c)) password
    then strength + 1 else strength in
  if strength <=? 2 then mkStrength "weak" "Weak" "strength-weak"
  else if strength <=? 4 then mkStrength "medium" "Medium" "strength-medium"
  else mkStrength "strong" "Strong" "strength-strong".

(** Number of the four kinds of character (lower case, upper case, digit,
    other) that occur in a text. *)
Definition kinds (s : list N) : Z :=
  Z.b2z (existsb isLower s) + Z.b2z (existsb isUpper s)
  + Z.b2z (existsb isDigit s)
  + Z.b2z (existsb (fun c => negb (isLower c || isUpper c || isDigit c)) s).

(** The count [getPasswordStrength] compares with 2 and 4. *)
Definition score (s : list N) : Z :=
  Z.b2z (8 <=? length s)%nat + Z.b2z (12 <=? length s)%nat + kinds s.

End Checks.

(** ** auth.js: the submit handlers of the login and signup forms *)
Module Auth.
Import Text Checks.

(** Requests sent to the authentication service. *)
Inductive AuthCall : Type :=
| SignInWithPassword (email password : list N)
| SignUp (email password name : list N).

(** What the handlers change: the error and success lines, the state of
    the submit button, the form, the requests sent, the toasts shown and
    the pending redirect (target and delay in milliseconds). *)
Record AuthPage : Type := mkAuthPage
  { errorText : string;
    errorShown : bool;
    successText : string;
    successShown : bool;
    loading : bool;
    disabled : bool;
    formReset : bool;
    strengthShown : bool;
    auth_calls : list AuthCall;
    auth_toasts : list (string * string);
    redirect : option (string * Z) }.

(** [errorMessage.textContent = text; errorMessage.style.display = 'block']. *)
Definition show_error (text : string) (pg : AuthPage) : AuthPage :=
  mkAuthPage text true (successText pg) (successShown pg) (loading pg)
    (disabled pg) (formReset pg) (strengthShown pg) (auth_calls pg)
    (auth_toasts pg) (redirect pg).

Definition hide_error (pg : AuthPage) : AuthPage :=
  mkAuthPage (errorText pg) false (successText pg) (successShown pg)
    (loading pg) (disabled pg) (formReset pg) (strengthShown pg)
    (auth_calls pg) (auth_toasts pg) (redirect pg).

Definition show_success (text : string) (pg : AuthPage) : AuthPage :=
  mkAuthPage (errorText pg) (errorShown pg) text true (loading pg)
    (disabled pg) (formReset pg) (strengthShown pg) (auth_calls pg)
    (auth_toasts pg) (redirect pg).

Definition hide_success (pg : AuthPage) : AuthPage :=
  mkAuthPage (errorText pg) (errorShown pg) (successText pg) false
    (loading pg) (disabled pg) (formReset pg) (strengthShown pg)
    (auth_calls pg) (auth_toasts pg) (redirect pg).

(** The button's [loading] class and [disabled] flag, set together. *)
Definition set_busy (b : bool) (pg : AuthPage) : AuthPage :=
  mkAuthPage (errorText pg) (errorShown pg) (successText pg) (successShown pg)
    b b (formReset pg) (strengthShown pg) (auth_calls pg) (auth_toasts pg)
    (redirect pg).

(** [signupForm.reset(); passwordStrengthEl.style.display = 'none']. *)
Definition reset_form (pg : AuthPage) : AuthPage :=
  mkAuthPage (errorText pg) (errorShown pg) (successText pg) (successShown pg)
    (loading pg) (disabled pg) true false (auth_calls pg) (auth_toasts pg)
    (redirect pg).

Definition add_call (c : AuthCall) (pg : AuthPage) : AuthPage :=
  mkAuthPage (errorText pg) (errorShown pg) (successText pg) (successShown pg)
    (loading pg) (disabled pg) (formReset pg) (strengthShown pg)
    (auth_calls pg ++ [c]) (auth_toasts pg) (redirect pg).

Definition add_toast (message type : string) (pg : AuthPage) : AuthPage :=
  mkAuthPage (errorText pg) (errorShown pg) (successText pg) (successShown pg)
    (loading pg) (disabled pg) (formReset pg) (strengthShown pg)
    (auth_calls pg) (auth_toasts pg ++ [(message, type)]) (redirect pg).

(** [setTimeout(() => { window.location.href = target }, delay)]. *)
Definition set_redirect (target : string) (delay : Z) (pg : AuthPage) : AuthPage :=
  mkAuthPage (errorText pg) (errorShown pg) (successText pg) (successShown pg)
    (loading pg) (disabled pg) (formReset pg) (strengthShown pg)
    (auth_calls pg) (auth_toasts pg) (Some (target, delay)).

(** [error.message || fallback]. *)
Definition message_or (message : option string) (fallback : string) : string :=
  match message with
  | Some m => if String.eqb m "" then fallback else m
  | None => fallback
  end.

(** Answer of [signInWithPassword]: an error, or the user with the value
    of [email_confirmed_at]. *)
Inductive SignInResult : Type :=
| SignInError (message : option string)
| SignInOk (email_confirmed_at : option string).

Definition confirmed (email_confirmed_at : option string) : bool :=
  match email_confirmed_at with
  | Some s => negb (String.eqb s "")
  | None => false
  end.

(** The submit handler of the login form; [email_value] and
    [password_value] are the values of the two inputs, [res] the answer
    of the service when it is asked. *)
Definition loginSubmit (email_value password_value : list N)
    (res : SignInResult) (pg : AuthPage) : AuthPage :=
  let email := trim email_value in
  let password := password_value in
  if negb (isValidEmail email) then
    show_error "Please enter a valid email address" pg
  else
    let pg := hide_error (set_busy true pg) in
    let pg := add_call (SignInWithPassword email password) pg in
    match res with
    | SignInError message =>
        set_busy false
          (show_error (message_or message "Invalid email or password") pg)
    | SignInOk email_confirmed_at =>
        if negb (confirmed email_confirmed_at) then
          set_busy false
            (show_error "Please verify your email before logging in" pg)
        else
          set_redirect "dashboard.html" 500
            (add_toast "Login successful!" "success" pg)
    end.

(** Answer of [signUp]. *)
Inductive SignUpResult : Type :=
| SignUpError (message : option string)
| SignUpOk.

(** The submit handler of the signup form. *)
Definition signupSubmit (name_value email_value password_value
    confirm_value : list N) (res : SignUpResult) (pg : AuthPage) : AuthPage :=
  let name := trim name_value in
  let email := trim email_value in
  let password := password_value in
  let confirmPassword := confirm_value in
  if (length name =? 0)%nat then
    show_error "Please enter your name" pg
  else if negb (isValidEmail email) then
    show_error "Please enter a valid email address" pg
  else if (length password <? 8)%nat then
    show_error "Password must be at least 8 characters" pg
  else if negb (bool_decide (password = confirmPassword)) then
    show_error "Passwords do not match" pg
  else
    let pg := hide_success (hide_error (set_busy true pg)) in
    let pg := add_call (SignUp email password name) pg in
    let pg :=
      match res with
      | SignUpError message =>
          show_error (message_or message "Failed to create account") pg
      | SignUpOk =>
          set_redirect "login.html" 3000
            (add_toast "Verification email sent!" "success"
               (reset_form
                  (show_success
                     "Account created! Please check your email to verify your account."
                     pg)))
      end in
    set_busy false pg.

(** [logout()]; [error] is the error of [signOut], if any. *)
Definition logout (error : option string) (pg : AuthPage) : AuthPage :=
  match error with
  | Some _ => add_toast "Failed to logout" "error" pg
  | None =>
      set_redirect "login.html" 0
        (add_toast "Logged out successfully" "success" pg)
  end.

End Auth.

(** ** File names and storage paths (utils.js, dashboard.js, profile.js) *)
Module Paths.

(** [s.split(sep)] for a separator of one character. *)
Fixpoint split (sep : ascii) (s : string) : list string :=
  match s with
  | EmptyString => [EmptyString]
  | String c rest =>
      if Ascii.eqb c sep then EmptyString :: split sep rest
      else match split sep rest with
           | seg :: segs => String c seg :: segs
           | [] => [String c EmptyString]
           end
  end.

(** [parts.join(sep)]. *)
Fixpoint join (sep : string) (parts : list string) : string :=
  match parts with
  | [] => EmptyString
  | [x] => x
  | x :: rest => x +:+ sep +:+ join sep rest
  end.

(** [parts.pop()] of a list that is not empty. *)
Definition pop (parts : list string) : string := List.last parts EmptyString.

(** [parts.slice(-n)]. *)
Definition slice_last {A} (n : nat) (parts : list A) : list A :=
  drop (length parts - n) parts.

(** [generateUniqueFilename(originalName)], given the values of
    [Date.now()] and of the six characters drawn from [Math.random()]. *)
Definition generateUniqueFilename (timestamp : Z) (randomString : string)
    (originalName : string) : string :=
  let extension := pop (split "." originalName) in
  pretty timestamp +:+ "_" +:+ randomString +:+ "." +:+ extension.

(** The path of an upload, [`${currentUser.id}/${filename}`]. *)
Definition filePath (uid filename : string) : string :=
  uid +:+ "/" +:+ filename.

(** [oldPath] of [handleAvatarUpload]:
    [avatar_url.split('/').slice(-2).join('/')]. *)
Definition oldPath (avatar_url : string) : string :=
  join "/" (slice_last 2 (split "/" avatar_url)).

(** Whether the character occurs in the text. *)
Fixpoint occurs (c : ascii) (s : string) : bool :=
  match s with
  | EmptyString => false
  | String c' rest => Ascii.eqb c' c || occurs c rest
  end.

End Paths.

(** ** profile.js: saving the name and the notification switch *)
Module Profile.
Import Text Scheduling.

(** Requests sent to the [profiles] table. *)
Inductive ProfileCall : Type :=
| UpdateName (uid : string) (name : list N).

(** The save button ([loading] class and [disabled] flag, set together),
    the requests sent and the toasts shown. *)
Record ProfilePage : Type := mkProfilePage
  { saving : bool;
    profile_calls : list ProfileCall;
    profile_toasts : list (string * string) }.

Definition set_saving (b : bool) (pg : ProfilePage) : ProfilePage :=
  mkProfilePage b (profile_calls pg) (profile_toasts pg).

Definition profile_toast (message type : string) (pg : ProfilePage) : ProfilePage :=
  mkProfilePage (saving pg) (profile_calls pg)
    (profile_toasts pg ++ [(message, type)]).

Definition profile_call (c : ProfileCall) (pg : ProfilePage) : ProfilePage :=
  mkProfilePage (saving pg) (profile_calls pg ++ [c]) (profile_toasts pg).

(** [saveProfile(e)]: [name_value] is the value of the name input,
    [error] the error of the update when it is sent.  The [finally]
    block runs after the early [return] as well. *)
Definition saveProfile (uid : string) (name_value : list N)
    (error : option string) (pg : ProfilePage) : ProfilePage :=
  let pg := set_saving true pg in
  let pg :=
    let name := trim name_value in
    if (length name =? 0)%nat then
      profile_toast "Please enter your name" "error" pg
    else
      let pg := profile_call (UpdateName uid name) pg in
      match error with
      | Some _ => profile_toast "Failed to save profile" "error" pg
      | None => profile_toast "Profile updated successfully" "success" pg
      end in
  set_saving false pg.

(** The browser after [Notification.requestPermission()] was or was not
    called by [requestNotificationPermission()]. *)
Definition asked (b : Browser) : Browser :=
  if supported b then
    match permission b with
    | default => mkBrowser true (answer b) (answer b)
    | _ => b
    end
  else b.

(** The text [updateNotificationStatus()] displays. *)
Definition statusLine (b : Browser) : string :=
  match getNotificationStatus b with
  | Some granted => "Notifications are enabled"
  | Some denied =>
      "Notifications are blocked. Please enable them in your browser settings."
  | _ => "Enable notifications to get alerts about expiring items"
  end.

Record Toggled : Type := mkToggled
  { checked_after : bool;
    notifier_after : Notifier;
    toast_shown : option (string * string);
    status_after : string }.

(** [handleNotificationToggle(e)]; [checked] is [e.target.checked]. *)
Definition handleNotificationToggle (checked : bool) (b : Browser)
    (st : Notifier) : Toggled :=
  if checked then
    let '(is_granted, st1) := requestNotificationPermission b st in
    if negb is_granted then
      mkToggled false st1 (Some ("Notification permission denied", "error"))
        (statusLine (asked b))
    else
      mkToggled true st1 (Some ("Notifications enabled", "success"))
        (statusLine (asked b))
  else mkToggled false st None (statusLine b).

End Profile.

(** ** Date status *)

Lemma msPerDay_pos : 0 < msPerDay.
Proof. reflexivity. Qed.

(** 2024-03-31 12:00 UTC is 17:30 of the same day at UTC+5:30; an item
    dated 2024-04-07 is seven days away, one dated 2024-03-30 is overdue. *)
Example daysUntilExpiry_utc_plus_0530 :
  daysUntilExpiry (fixedZone 19800000) (19813 * msPerDay + 43200000)
    (parseDateOnly 19820) = 7
  /\ daysUntilExpiry (fixedZone 19800000) (19813 * msPerDay + 43200000)
       (parseDateOnly 19812) = -1
  /\ getExpiryStatus (fixedZone 19800000) (19813 * msPerDay + 43200000)
       (parseDateOnly 19820)
     = mkStatus "soon" "7 days left" "status-soon".
Proof. repeat split; vm_compute; reflexivity. Qed.

Lemma Math_ceil_div_mul (a b : Z) : 0 < b -> Math_ceil_div (a * b) b = a.
Proof.
  intros Hb. unfold Math_ceil_div.
  rewrite <- Z.mul_opp_l, Z.div_mul by lia. lia.
Qed.

Lemma setHours0_fixed (LocalTZA : Zone) (offset t : Z) :
  (forall u b, LocalTZA u b = offset) ->
  setHours0 LocalTZA t = Day (t + offset) * msPerDay - offset.
Proof.
  intros Hz. unfold setHours0, UTC, LocalTime, MakeDate.
  rewrite !Hz. lia.
Qed.

Lemma daysUntilExpiry_fixed (LocalTZA : Zone) (offset now expiryDate : Z) :
  (forall u b, LocalTZA u b = offset) ->
  daysUntilExpiry LocalTZA now expiryDate
  = Day (expiryDate + offset) - Day (now + offset).
Proof.
  intros Hz. unfold daysUntilExpiry.
  change (1000 * 60 * 60 * 24) with msPerDay.
  rewrite !(setHours0_fixed _ offset) by assumption.
  replace (Day (expiryDate + offset) * msPerDay - offset
           - (Day (now + offset) * msPerDay - offset))
    with ((Day (expiryDate + offset) - Day (now + offset)) * msPerDay) by lia.
  apply Math_ceil_div_mul, msPerDay_pos.
Qed.

Lemma Day_add_days (t k : Z) : Day (t + k * msPerDay) = Day t + k.
Proof. unfold Day. apply Z.div_add. pose proof msPerDay_pos. lia. Qed.

Lemma Math_ceil_div_spec (a b d : Z) :
  0 < b -> (Math_ceil_div a b = d <-> (d - 1) * b < a <= d * b).
Proof.
  intros Hb. unfold Math_ceil_div.
  pose proof (Z.div_mod (- a) b) as Hdm.
  pose proof (Z.mod_pos_bound (- a) b Hb) as Hm.
  split; [intros <- | intros Hd]; [nia |].
  assert ((- a) `div` b = - d) as Hq; [| lia].
  symmetry. apply (Z.div_unique_pos _ _ _ (d * b - a)); lia.
Qed.

(** In every zone the count is the ceiling of the difference of the two
    normalized time values over one day: the least number of days that
    reaches from the normalized [now] to the normalized expiry date. *)
Lemma daysUntilExpiry_is_ceiling (LocalTZA : Zone) (now expiryDate : Z) :
  let diffTime := setHours0 LocalTZA expiryDate - setHours0 LocalTZA now in
  let days := daysUntilExpiry LocalTZA now expiryDate in
  (days - 1) * msPerDay < diffTime <= days * msPerDay.
Proof.
  cbn zeta. apply Math_ceil_div_spec; [apply msPerDay_pos | reflexivity].
Qed.

Lemma setHours0_at_offset (LocalTZA : Zone) (offset t : Z) :
  LocalTZA t true = offset ->
  LocalTZA (MakeDate (Day (t + offset)) 0) false = offset ->
  setHours0 LocalTZA t = Day (t + offset) * msPerDay - offset.
Proof.
  intros Hu Hl. unfold setHours0, UTC, LocalTime. rewrite Hu, Hl.
  unfold MakeDate. lia.
Qed.

(** Where the zone has one and the same offset at [now], at [now] a
    number of whole days later and at the expiry date (no clock change
    lies between them), the count is the difference of the local day
    numbers: it goes down by one with every day [now] advances, and it is
    [0] exactly when both normalize to the same local midnight. *)
Lemma daysUntilExpiry_whole_days_without_clock_change
    (LocalTZA : Zone) (offset now expiryDate k : Z) :
  LocalTZA now true = offset ->
  LocalTZA (MakeDate (Day (now + offset)) 0) false = offset ->
  LocalTZA (now + k * msPerDay) true = offset ->
  LocalTZA (MakeDate (Day (now + k * msPerDay + offset)) 0) false = offset ->
  LocalTZA expiryDate true = offset ->
  LocalTZA (MakeDate (Day (expiryDate + offset)) 0) false = offset ->
  daysUntilExpiry LocalTZA now expiryDate
    = Day (expiryDate + offset) - Day (now + offset)
  /\ daysUntilExpiry LocalTZA (now + k * msPerDay) expiryDate
     = daysUntilExpiry LocalTZA now expiryDate - k
  /\ (daysUntilExpiry LocalTZA now expiryDate = 0
      <-> setHours0 LocalTZA expiryDate = setHours0 LocalTZA now).
Proof.
  intros Hn1 Hn2 Hk1 Hk2 He1 He2.
  pose proof msPerDay_pos as HD.
  assert (forall t, LocalTZA t true = offset ->
                    LocalTZA (MakeDate (Day (t + offset)) 0) false = offset ->
                    daysUntilExpiry LocalTZA t expiryDate
                    = Day (expiryDate + offset) - Day (t + offset)) as Hdays.
  { intros t Ht1 Ht2. unfold daysUntilExpiry.
    change (1000 * 60 * 60 * 24) with msPerDay.
    rewrite (setHours0_at_offset _ offset t), (setHours0_at_offset _ offset expiryDate)
      by assumption.
    replace (Day (expiryDate + offset) * msPerDay - offset
             - (Day (t + offset) * msPerDay - offset))
      with ((Day (expiryDate + offset) - Day (t + offset)) * msPerDay) by lia.
    by apply Math_ceil_div_mul. }
  split; [by apply Hdays |]. split.
  - rewrite !Hdays by assumption.
    replace (now + k * msPerDay + offset) with (now + offset + k * msPerDay) by lia.
    rewrite Day_add_days. lia.
  - rewrite Hdays by assumption.
    rewrite (setHours0_at_offset _ offset now), (setHours0_at_offset _ offset expiryDate)
      by assumption.
    split; intros H0; [f_equal; f_equal; lia | nia].
Qed.

(** After the clock change of 2024-03-31 the offset is again the same at
    all instants involved: an item dated 2024-06-20 is 10 days away on
    2024-06-10 and 9 days away on 2024-06-11. *)
Example daysUntilExpiry_in_june :
  daysUntilExpiry berlin (19884 * msPerDay + 8 * 3600000) (parseDateOnly 19894) = 10
  /\ daysUntilExpiry berlin (19884 * msPerDay + 8 * 3600000 + 1 * msPerDay)
       (parseDateOnly 19894) = 9.
Proof.
  destruct (daysUntilExpiry_whole_days_without_clock_change berlin 7200000
              (19884 * msPerDay + 8 * 3600000) (parseDateOnly 19894) 1)
    as (H0 & H1 & _); try reflexivity.
  rewrite H1, H0. by split.
Qed.

(** C7.  The count is the ceiling of the difference of the normalized
    time values over one day, but across a forward clock change it is not
    a count of whole days.  Zone: UTC+1 until 2024-03-31T01:00Z, UTC+2
    after.  An item dated 2024-03-31 is looked at on 2024-03-31 at 10:00
    local time and again 24 hours later.  The first time both dates
    normalize to the same local midnight and the count is [0].  The
    second time, a calendar day later, the two local midnights are 23
    hours apart and the ceiling of -23/24 is [0] again: the count has not
    gone down, it is [0] although the dates differ, and the badge of the
    item dated yesterday reads "Expires Today". *)
Theorem daysUntilExpiry_zero_on_the_day_after_a_clock_change :
  let today := 19813 * msPerDay + 8 * 3600000 in
  let tomorrow := today + 1 * msPerDay in
  let expiryDate := parseDateOnly 19813 in
  setHours0 berlin expiryDate = setHours0 berlin today
  /\ daysUntilExpiry berlin today expiryDate = 0
  /\ setHours0 berlin expiryDate - setHours0 berlin tomorrow = - (23 * 3600000)
  /\ daysUntilExpiry berlin tomorrow expiryDate = 0
  /\ getExpiryStatus berlin tomorrow expiryDate
     = mkStatus "today" "Expires Today" "status-today".
Proof.
  cbn zeta.
  assert (setHours0 berlin (parseDateOnly 19813) = 19812 * msPerDay + 23 * 3600000)
    as He by reflexivity.
  assert (setHours0 berlin (19813 * msPerDay + 8 * 3600000)
          = 19812 * msPerDay + 23 * 3600000) as Ht by reflexivity.
  assert (setHours0 berlin (19813 * msPerDay + 8 * 3600000 + 1 * msPerDay)
          = 19813 * msPerDay + 22 * 3600000) as Hn by reflexivity.
  assert (daysUntilExpiry berlin (19813 * msPerDay + 8 * 3600000 + 1 * msPerDay)
            (parseDateOnly 19813) = 0) as Hd.
  { unfold daysUntilExpiry. rewrite He, Hn. reflexivity. }
  split; [by rewrite He, Ht |].
  split; [unfold daysUntilExpiry; by rewrite He, Ht |].
  split; [rewrite He, Hn; reflexivity |].
  split; [exact Hd |].
  unfold getExpiryStatus. by rewrite Hd.
Qed.

(** With the same item and zone: the count does not go down from one day
    to the next, and is [0] on a day that is not the day of the item. *)
Lemma daysUntilExpiry_not_decreasing_across_clock_change :
  let now := 19813 * msPerDay + 8 * 3600000 in
  let expiryDate := parseDateOnly 19813 in
  ~ (daysUntilExpiry berlin (now + 1 * msPerDay) expiryDate
     < daysUntilExpiry berlin now expiryDate)
  /\ ~ (daysUntilExpiry berlin (now + 1 * msPerDay) expiryDate = 0
        <-> setHours0 berlin expiryDate = setHours0 berlin (now + 1 * msPerDay)).
Proof.
  split.
  - vm_compute. discriminate.
  - intros [H _]. specialize (H eq_refl). vm_compute in H. discriminate.
Qed.

(** C6.  The tier shown by [getExpiryStatus] is decided by the day count:
    negative is EXPIRED, 0 is DUE_TODAY, 1..7 SOON, 8..30 UPCOMING, above
    30 OK. *)
Theorem tier_by_days_remaining (LocalTZA : Zone) (now expiryDate : Z) :
  let days := daysUntilExpiry LocalTZA now expiryDate in
  (days < 0 -> classify_tier LocalTZA now expiryDate = Some EXPIRED)
  /\ (days = 0 -> classify_tier LocalTZA now expiryDate = Some DUE_TODAY)
  /\ (1 <= days <= 7 -> classify_tier LocalTZA now expiryDate = Some SOON)
  /\ (8 <= days <= 30 -> classify_tier LocalTZA now expiryDate = Some UPCOMING)
  /\ (30 < days -> classify_tier LocalTZA now expiryDate = Some OK).
Proof.
  intros days. unfold classify_tier, getExpiryStatus. fold days.
  destruct (Z.ltb_spec days 0); [repeat split; intros; (reflexivity || lia) |].
  destruct (Z.eqb_spec days 0); [repeat split; intros; (reflexivity || lia) |].
  destruct (Z.leb_spec days 7); [repeat split; intros; (reflexivity || lia) |].
  destruct (Z.leb_spec days 30); repeat split; intros; (reflexivity || lia).
Qed.

(** The boundary values -1, 0, 1, 7, 8, 30, 31 of the day count, reached
    by dates that many days after a fixed [now]. *)
Lemma tier_by_days_remaining_witness :
  let z := fixedZone 0 in
  let now := 19813 * msPerDay + 43200000 in
  classify_tier z now (parseDateOnly (19813 - 1)) = Some EXPIRED
  /\ classify_tier z now (parseDateOnly 19813) = Some DUE_TODAY
  /\ classify_tier z now (parseDateOnly (19813 + 1)) = Some SOON
  /\ classify_tier z now (parseDateOnly (19813 + 7)) = Some SOON
  /\ classify_tier z now (parseDateOnly (19813 + 8)) = Some UPCOMING
  /\ classify_tier z now (parseDateOnly (19813 + 30)) = Some UPCOMING
  /\ classify_tier z now (parseDateOnly (19813 + 31)) = Some OK.
Proof.
  intros z now.
  pose proof (fun e => tier_by_days_remaining z now e) as T.
  split; [apply (T (parseDateOnly (19813 - 1))); reflexivity |].
  split; [apply (T (parseDateOnly 19813)); reflexivity |].
  split; [apply (T (parseDateOnly (19813 + 1))); vm_compute; split; discriminate |].
  split; [apply (T (parseDateOnly (19813 + 7))); vm_compute; split; discriminate |].
  split; [apply (T (parseDateOnly (19813 + 8))); vm_compute; split; discriminate |].
  split; [apply (T (parseDateOnly (19813 + 30))); vm_compute; split; discriminate |].
  apply (T (parseDateOnly (19813 + 31))); reflexivity.
Defined.

(** ** The item collection under realtime events *)

Lemma count_id_nil (x : string) : count_id x [] = 0%nat.
Proof. reflexivity. Qed.

Lemma count_id_cons (x : string) (a : Item) (l : list Item) :
  count_id x (a :: l)
  = ((if decide (id a = x) then 1 else 0) + count_id x l)%nat.
Proof.
  unfold count_id. rewrite filter_cons.
  destruct (decide (id a = x)); reflexivity.
Qed.

Lemma count_id_app (x : string) (l1 l2 : list Item) :
  count_id x (l1 ++ l2) = (count_id x l1 + count_id x l2)%nat.
Proof. unfold count_id. by rewrite filter_app, length_app. Qed.

(** The count is a function of the list of ids alone. *)
Lemma count_id_fmap (x : string) (l : list Item) :
  count_id x l = length (filter (fun y => y = x) (id <$> l)).
Proof.
  induction l as [| a l IH]; [reflexivity |].
  rewrite count_id_cons, fmap_cons, filter_cons, IH.
  destruct (decide (id a = x)); reflexivity.
Qed.

Lemma count_id_zero (x : string) (l : list Item) :
  count_id x l = 0%nat <-> Forall (fun item => id item <> x) l.
Proof.
  induction l as [| a l IH]; [by split; [constructor |] |].
  rewrite count_id_cons, Forall_cons.
  destruct (decide (id a = x)); [split; [discriminate | tauto] |].
  rewrite <- IH. split; [by intros H; split | by intros [_ H]].
Qed.

Lemma NoDup_ids_at_most_one (l : list Item) :
  NoDup (id <$> l) -> at_most_one_per_id l.
Proof.
  induction l as [| a l IH]; intros Hnd x; [rewrite count_id_nil; lia |].
  rewrite fmap_cons, NoDup_cons in Hnd. destruct Hnd as [Hnotin Hnd].
  rewrite count_id_cons. specialize (IH Hnd x).
  destruct (decide (id a = x)) as [<- |]; [| lia].
  assert (count_id (id a) l = 0%nat) as ->; [| lia].
  apply count_id_zero, Forall_forall. intros b Hb Heq.
  apply Hnotin. rewrite <- Heq. by apply list_elem_of_fmap_2.
Qed.

Lemma findIndex_from_spec {A} (p : A -> bool) (l : list A) (i : Z) :
  0 <= i ->
  (findIndex_from p l i = -1 /\ Forall (fun x => p x = false) l)
  \/ (exists (k : nat) (y : A),
        findIndex_from p l i = i + Z.of_nat k /\ l !! k = Some y /\ p y = true).
Proof.
  revert i. induction l as [| x l IH]; intros i Hi; [left; by split |].
  simpl. destruct (p x) eqn:Hpx.
  - right. exists 0%nat, x. repeat split; [lia | assumption].
  - destruct (IH (i + 1)) as [[Hm Hall] | (k & y & Hk & Hlk & Hpy)]; [lia | |].
    + left. split; [assumption | by constructor].
    + right. exists (S k), y. repeat split; [lia | assumption | assumption].
Qed.

(** What the UPDATE branch does to [items]: nothing when no item has the
    id, otherwise it overwrites one item that has the id. *)
Lemma update_items_cases (newRecord : Item) (st : Page) :
  (count_id (id newRecord) (items st) = 0%nat
   /\ handleRealtimeChange (UPDATE newRecord) st = st)
  \/ (exists (k : nat) (old : Item),
        items st !! k = Some old /\ id old = id newRecord
        /\ items (handleRealtimeChange (UPDATE newRecord) st)
           = <[k := newRecord]> (items st)).
Proof.
  unfold handleRealtimeChange, findIndex.
  destruct (findIndex_from_spec
              (fun item => String.eqb (id item) (id newRecord)) (items st) 0)
    as [[Hm Hall] | (k & y & Hk & Hlk & Hpy)]; [lia | |].
  - left. rewrite Hm. split; [| reflexivity].
    apply count_id_zero. eapply Forall_impl; [exact Hall |].
    intros item Hf Heq. simpl in Hf. rewrite Heq, String.eqb_refl in Hf. discriminate.
  - right. exists k, y. rewrite Hk.
    apply String.eqb_eq in Hpy.
    destruct (Z.eqb_spec (0 + Z.of_nat k) (-1)); [lia |].
    simpl. replace (Z.to_nat (0 + Z.of_nat k)) with k by lia. by repeat split.
Qed.

Lemma update_keeps_ids (newRecord : Item) (st : Page) :
  id <$> items (handleRealtimeChange (UPDATE newRecord) st) = id <$> items st.
Proof.
  destruct (update_items_cases newRecord st)
    as [[_ ->] | (k & old & Hk & Hid & ->)]; [reflexivity |].
  rewrite list_fmap_insert. apply list_insert_id.
  by rewrite list_lookup_fmap, Hk, <- Hid.
Qed.

Lemma delete_items (x : string) (st : Page) :
  items (handleRealtimeChange (DELETE x) st)
  = filter (fun item => id item <> x) (items st).
Proof. reflexivity. Qed.

Lemma count_id_delete (x y : string) (l : list Item) :
  count_id y (filter (fun item => id item <> x) l)
  = if decide (y = x) then 0%nat else count_id y l.
Proof.
  induction l as [| a l IH]; [by destruct (decide (y = x)) |].
  rewrite filter_cons. destruct (decide (id a <> x)) as [Hne | Heq].
  - rewrite !count_id_cons, IH.
    destruct (decide (y = x)) as [-> |]; [| reflexivity].
    by destruct (decide (id a = x)).
  - apply dec_stable in Heq. rewrite count_id_cons, IH.
    destruct (decide (y = x)) as [-> |]; [reflexivity |].
    destruct (decide (id a = y)); [congruence | reflexivity].
Qed.

(** C10.  A DELETE event for [x] leaves no item with id [x], whatever
    number of them the collection held; the items with other ids stay (the
    same ones, as often, in their order); when no item has id [x] the
    collection is unchanged; and a second DELETE for [x] changes nothing. *)
Theorem delete_purges_every_item_with_id (x : string) (st : Page) :
  let st' := handleRealtimeChange (DELETE x) st in
  count_id x (items st') = 0%nat
  /\ (forall item, item ∈ items st' <-> item ∈ items st /\ id item <> x)
  /\ (forall y, y <> x -> count_id y (items st') = count_id y (items st))
  /\ sublist (items st') (items st)
  /\ (count_id x (items st) = 0%nat -> items st' = items st)
  /\ items (handleRealtimeChange (DELETE x) st') = items st'.
Proof.
  intros st'. subst st'. rewrite !delete_items.
  split; [rewrite count_id_delete; by destruct (decide (x = x)) |].
  split; [intros item; rewrite list_elem_of_filter; tauto |].
  split; [intros y Hy; rewrite count_id_delete; by destruct (decide (y = x)) |].
  split; [apply sublist_filter |].
  split.
  - intros H0. apply count_id_zero in H0.
    induction H0 as [| a l Ha _ IH]; [reflexivity |].
    by rewrite filter_cons_True, IH.
  - rewrite list_filter_filter. apply list_filter_iff. tauto.
Qed.

Lemma delete_purges_every_item_with_id_witness :
  items (handleRealtimeChange (DELETE "a")
           (set_items [eggs 4; milk 5] (init alice)))
  = [eggs 4]
  /\ items (handleRealtimeChange (DELETE "zzz")
             (set_items [eggs 4; milk 5] (init alice)))
     = [eggs 4; milk 5].
Proof.
  split; [reflexivity |].
  destruct (delete_purges_every_item_with_id "zzz"
              (set_items [eggs 4; milk 5] (init alice)))
    as (_ & _ & _ & _ & Hnoop & _).
  apply Hnoop. reflexivity.
Defined.

(** A DELETE clears duplicates that INSERT events piled up. *)
Example delete_clears_duplicates :
  items (run [Feed (INSERT (milk 5)); Feed (INSERT (eggs 4));
              Feed (INSERT (milk 5)); Feed (DELETE "a")] (init alice))
  = [eggs 4].
Proof. reflexivity. Qed.

(** C1 (as amended).  An INSERT event appends the record whether or not an
    item with its id is present: every application adds one more item with
    that id, so applying the same INSERT twice gives the snapshot of
    applying it once followed by a second copy of the record, never the
    same snapshot. *)
Theorem insert_appends_unconditionally (newRecord : Item) (st : Page) :
  let once := handleRealtimeChange (INSERT newRecord) st in
  let twice := handleRealtimeChange (INSERT newRecord) once in
  items once = items st ++ [newRecord]
  /\ count_id (id newRecord) (items once)
     = S (count_id (id newRecord) (items st))
  /\ items twice = items once ++ [newRecord]
  /\ items twice <> items once.
Proof.
  simpl. split; [reflexivity |]. split.
  - rewrite count_id_app, count_id_cons, count_id_nil.
    destruct (decide (id newRecord = id newRecord)); [lia | congruence].
  - split; [reflexivity |]. intros Heq.
    apply (f_equal length) in Heq. rewrite !length_app in Heq. simpl in Heq. lia.
Qed.

(** C1, counterexample.  The store holds one item with id ["a"]; the
    INSERT of that same record is delivered again and the snapshot grows. *)
Lemma insert_twice_differs_from_once :
  let once := handleRealtimeChange (INSERT (milk 5)) (init alice) in
  count_id (id (milk 5)) (items once) = 1%nat
  /\ items (handleRealtimeChange (INSERT (milk 5)) once) = [milk 5; milk 5]
  /\ items (handleRealtimeChange (INSERT (milk 5)) once) <> items once.
Proof. split; [reflexivity |]. split; [reflexivity | discriminate]. Qed.

Lemma count_id_lookup (l : list Item) (k : nat) (old : Item) :
  l !! k = Some old -> (1 <= count_id (id old) l)%nat.
Proof.
  intros Hk. destruct (count_id (id old) l) eqn:Hc; [| lia].
  apply count_id_zero in Hc. rewrite Forall_lookup in Hc.
  by destruct (Hc k old Hk).
Qed.

Lemma update_keeps_counts (newRecord : Item) (st : Page) (y : string) :
  count_id y (items (handleRealtimeChange (UPDATE newRecord) st))
  = count_id y (items st).
Proof. by rewrite !count_id_fmap, update_keeps_ids. Qed.

(** C3 (as amended).  An UPDATE event whose id no item of the store has
    is ignored: the page state is left as it was, so the snapshot still
    holds no item with that id. *)
Theorem update_of_absent_id_is_ignored (newRecord : Item) (st : Page) :
  count_id (id newRecord) (items st) = 0%nat ->
  handleRealtimeChange (UPDATE newRecord) st = st
  /\ count_id (id newRecord)
       (items (handleRealtimeChange (UPDATE newRecord) st)) = 0%nat.
Proof.
  intros H0.
  destruct (update_items_cases newRecord st)
    as [[_ Hst] | (k & old & Hk & Hid & _)].
  - by rewrite Hst.
  - apply count_id_lookup in Hk. rewrite Hid in Hk. lia.
Qed.

Lemma update_of_absent_id_is_ignored_witness :
  handleRealtimeChange (UPDATE (eggs 9)) (set_items [milk 5] (init alice))
  = set_items [milk 5] (init alice).
Proof.
  apply (update_of_absent_id_is_ignored (eggs 9)
           (set_items [milk 5] (init alice))).
  reflexivity.
Defined.

(** C3, counterexample.  An UPDATE for id ["b"] reaches the empty store:
    the snapshot holds no item with id ["b"], and is not what the INSERT
    of the same record gives. *)
Lemma update_of_unseen_id_adds_nothing :
  count_id "b" (items (handleRealtimeChange (UPDATE (eggs 9)) (init alice)))
    <> 1%nat
  /\ items (handleRealtimeChange (UPDATE (eggs 9)) (init alice))
     <> items (handleRealtimeChange (INSERT (eggs 9)) (init alice)).
Proof. split; discriminate. Qed.

(** An UPDATE for an id the store holds overwrites the first such item in
    place. *)
Example update_in_place :
  items (handleRealtimeChange (UPDATE (milk 9))
           (set_items [eggs 4; milk 5; milk 6] (init alice)))
  = [eggs 4; milk 9; milk 6].
Proof. reflexivity. Qed.

Lemma step_keeps_at_most_one (op : Op) (st : Page) :
  at_most_one_per_id (items st) ->
  brings_no_duplicate op st ->
  at_most_one_per_id (items (step op st)).
Proof.
  intros Hinv Hop.
  destruct op as [[[rows |] | msg] | [r | r | x]]; simpl in *.
  - by apply NoDup_ids_at_most_one.
  - intros y. rewrite count_id_nil. lia.
  - exact Hinv.
  - intros y. rewrite count_id_app, count_id_cons, count_id_nil.
    specialize (Hinv y). destruct (decide (id r = y)) as [<- |]; lia.
  - intros y. change (count_id y (items (handleRealtimeChange (UPDATE r) st)) <= 1)%nat.
    rewrite update_keeps_counts. apply Hinv.
  - intros y. rewrite count_id_delete. specialize (Hinv y).
    destruct (decide (y = x)); lia.
Qed.

Lemma run_keeps_at_most_one (ops : list Op) (st : Page) :
  at_most_one_per_id (items st) ->
  duplicate_free_run ops st ->
  at_most_one_per_id (items (run ops st)).
Proof.
  revert st. induction ops as [| op ops IH]; intros st Hinv Hrun; [exact Hinv |].
  destruct Hrun as [Hop Hrest]. simpl. apply IH; [| exact Hrest].
  by apply step_keeps_at_most_one.
Qed.

(** C2 (as amended).  Starting from the empty store, after any sequence of
    loads and INSERT / UPDATE / DELETE events in which every load delivers
    rows with distinct ids and every INSERT carries an id the store does
    not hold when the event is applied, the collection has at most one
    item per id. *)
Theorem ids_unique_when_inserts_are_fresh (u : User) (ops : list Op) :
  duplicate_free_run ops (init u) ->
  at_most_one_per_id (items (run ops (init u))).
Proof.
  apply run_keeps_at_most_one. intros y. simpl. rewrite count_id_nil. lia.
Qed.

Lemma ids_unique_when_inserts_are_fresh_witness :
  at_most_one_per_id
    (items (run [Reload (SelectData (Some [eggs 4])); Feed (INSERT (milk 5));
                 Feed (UPDATE (milk 7)); Feed (DELETE "b");
                 Feed (INSERT (eggs 8))] (init alice))).
Proof.
  apply (ids_unique_when_inserts_are_fresh alice).
  simpl. repeat split; try reflexivity.
  apply (bool_decide_unpack _). vm_compute. exact I.
Defined.

(** C2, counterexample.  The same INSERT delivered twice to the empty
    store leaves two items with id ["a"]. *)
Lemma duplicate_insert_breaks_id_uniqueness :
  ~ at_most_one_per_id
      (items (run [Feed (INSERT (milk 5)); Feed (INSERT (milk 5))] (init alice))).
Proof. intros H. specialize (H "a"). vm_compute in H. lia. Qed.

(** ** Order of the snapshot *)

Lemma String_leb_trans (a b c : string) :
  String.leb a b = true -> String.leb b c = true -> String.leb a c = true.
Proof.
  unfold String.leb. intros Hab Hbc.
  destruct (String.compare a b) eqn:Eab; [| | discriminate].
  - apply String.compare_eq_iff in Eab. by subst.
  - destruct (String.compare b c) eqn:Ebc; [| | discriminate].
    + apply String.compare_eq_iff in Ebc. subst. by rewrite Eab.
    + apply String_as_OT.cmp_lt in Eab, Ebc.
      pose proof (String_as_OT.lt_trans _ _ _ Eab Ebc) as Hac.
      apply String_as_OT.cmp_lt in Hac.
      unfold String_as_OT.cmp in Hac. by rewrite Hac.
Qed.

Lemma item_leb_iff (a b : Item) :
  item_leb a b = true
  <-> expiry_date a < expiry_date b
      \/ (expiry_date a = expiry_date b /\ String.leb (id a) (id b) = true).
Proof.
  unfold item_leb.
  rewrite orb_true_iff, andb_true_iff, Z.ltb_lt, Z.eqb_eq. tauto.
Qed.

Lemma item_leb_trans (a b c : Item) :
  item_leb a b = true -> item_leb b c = true -> item_leb a c = true.
Proof.
  rewrite !item_leb_iff.
  intros [Hab | [Hab Sab]] [Hbc | [Hbc Sbc]]; [left; lia .. |].
  right. split; [lia | by eapply String_leb_trans].
Qed.

Lemma is_sorted_cons_iff (a : Item) (l : list Item) :
  is_sorted (a :: l) = true
  <-> Forall (fun b => item_leb a b = true) l /\ is_sorted l = true.
Proof.
  revert a. induction l as [| b l IH]; intros a; [by split |].
  change (is_sorted (a :: b :: l)) with (item_leb a b && is_sorted (b :: l)).
  rewrite andb_true_iff, Forall_cons. split.
  - intros [Hab Hs]. split; [split; [exact Hab |] | exact Hs].
    apply IH in Hs as [Hall _]. eapply Forall_impl; [exact Hall |].
    intros c Hbc. by eapply item_leb_trans.
  - intros [[Hab _] Hs]. by split.
Qed.

Lemma is_sorted_filter (P : Item -> Prop) `{!forall x, Decision (P x)}
    (l : list Item) :
  is_sorted l = true -> is_sorted (filter P l) = true.
Proof.
  induction l as [| a l IH]; [done |].
  rewrite is_sorted_cons_iff. intros [Hall Hs]. rewrite filter_cons.
  destruct (decide (P a)); [| by apply IH].
  apply is_sorted_cons_iff. split; [| by apply IH].
  rewrite Forall_forall in Hall |- *. intros b Hb.
  apply list_elem_of_filter in Hb as [_ Hb]. by apply Hall.
Qed.

Lemma is_sorted_snoc (l : list Item) (r : Item) :
  is_sorted (l ++ [r]) = true
  <-> is_sorted l = true
      /\ match last l with Some z => item_leb z r = true | None => True end.
Proof.
  induction l as [| a l IH]; [by split |].
  destruct l as [| b l].
  - simpl. rewrite andb_true_r. tauto.
  - change (is_sorted ((a :: b :: l) ++ [r]))
      with (item_leb a b && is_sorted ((b :: l) ++ [r])).
    change (is_sorted (a :: b :: l)) with (item_leb a b && is_sorted (b :: l)).
    change (last (a :: b :: l)) with (last (b :: l)).
    rewrite !andb_true_iff, IH. tauto.
Qed.

Lemma item_leb_same_keys (a a' b b' : Item) :
  expiry_date a = expiry_date a' -> id a = id a' ->
  expiry_date b = expiry_date b' -> id b = id b' ->
  item_leb a b = item_leb a' b'.
Proof. unfold item_leb. by intros -> -> -> ->. Qed.

Lemma is_sorted_same_keys (l l' : list Item) :
  Forall2 (fun a b => expiry_date a = expiry_date b /\ id a = id b) l l' ->
  is_sorted l = is_sorted l'.
Proof.
  induction 1 as [| a a' l l' [He Hi] Hrest IH]; [reflexivity |].
  destruct Hrest as [| b b' l l' [He' Hi'] Hrest]; [reflexivity |].
  change (item_leb a b && is_sorted (b :: l)
          = item_leb a' b' && is_sorted (b' :: l')).
  by rewrite IH, (item_leb_same_keys a a' b b').
Qed.

Lemma insert_same_keys (l : list Item) (k : nat) (old r : Item) :
  l !! k = Some old -> expiry_date old = expiry_date r -> id old = id r ->
  Forall2 (fun a b => expiry_date a = expiry_date b /\ id a = id b)
          l (<[k := r]> l).
Proof.
  revert k. induction l as [| a l IH]; intros [| k] Hk He Hi; try discriminate.
  - injection Hk as ->. simpl. constructor; [by split |].
    apply Forall2_same_length_lookup. split; [reflexivity |].
    intros i x y Hx Hy. rewrite Hx in Hy. by injection Hy as ->.
  - simpl. constructor; [by split | by apply IH].
Qed.

(** C4 (as amended).  The page never sorts [items]: a load stores the rows
    in the order the remote query delivered them, INSERT appends at the
    end, UPDATE overwrites in place.  So, for a snapshot sorted by expiry
    date with ties by id: a DELETE event keeps it sorted; an INSERT event
    keeps it sorted exactly when the new record is not ordered before the
    last item; an UPDATE event keeps it sorted when the new record has the
    expiry date of the items with its id. *)
Theorem sortedness_kept_by_order_respecting_events (st : Page) :
  is_sorted (items st) = true ->
  (forall x, is_sorted (items (handleRealtimeChange (DELETE x) st)) = true)
  /\ (forall r,
        is_sorted (items (handleRealtimeChange (INSERT r) st)) = true
        <-> match last (items st) with
            | Some z => item_leb z r = true
            | None => True
            end)
  /\ (forall r,
        (forall old, old ∈ items st -> id old = id r ->
                     expiry_date old = expiry_date r) ->
        is_sorted (items (handleRealtimeChange (UPDATE r) st)) = true)
  /\ (forall rows st0, items (loadItems (SelectData (Some rows)) st0) = rows).
Proof.
  intros Hs. split; [| split; [| split]].
  - intros x. rewrite delete_items. by apply is_sorted_filter.
  - intros r. simpl. rewrite is_sorted_snoc. tauto.
  - intros r Hsame.
    destruct (update_items_cases r st)
      as [[_ ->] | (k & old & Hk & Hid & ->)]; [exact Hs |].
    rewrite <- (is_sorted_same_keys (items st)); [exact Hs |].
    apply (insert_same_keys _ _ old); [exact Hk | | exact Hid].
    apply Hsame; [| exact Hid]. by eapply list_elem_of_lookup_2.
  - reflexivity.
Qed.

Lemma sortedness_kept_by_order_respecting_events_witness :
  is_sorted (items (handleRealtimeChange (DELETE "b")
                      (set_items [milk 3; eggs 3; milk 8] (init alice))))
  = true.
Proof.
  apply (sortedness_kept_by_order_respecting_events
           (set_items [milk 3; eggs 3; milk 8] (init alice))).
  reflexivity.
Defined.

(** C4, counterexample.  After an empty load, an item expiring on day 10
    is inserted, then one expiring on day 5: the later date comes first. *)
Lemma insert_breaks_sortedness :
  is_sorted
    (items (run [Reload (SelectData (Some [])); Feed (INSERT (milk 10));
                 Feed (INSERT (eggs 5))] (init alice)))
  <> true.
Proof. vm_compute. discriminate. Qed.

(** An UPDATE that moves the expiry date leaves the item where it was. *)
Example update_breaks_sortedness :
  is_sorted (items (handleRealtimeChange (UPDATE (milk 9))
                      (set_items [milk 3; eggs 4] (init alice))))
  = false.
Proof. reflexivity. Qed.

(** ** Import *)

Lemma handleImport_array (elems : list Js.Value) (insert_error : option string)
    (st : Page) :
  handleImport (Some (Some (Js.JArr elems))) insert_error st
  = match mapM (toInsert (currentUser st)) elems with
    | None => showToast "Failed to import data" "error" st
    | Some rows =>
        let sent := send (RemoteInsert "expiry_items" rows) st in
        match insert_error with
        | Some _ => showToast "Failed to import data" "error" sent
        | None =>
            showToast ("Imported " +:+ pretty (Z.of_nat (length rows))
                         +:+ " items successfully") "success" sent
        end
    end.
Proof.
  unfold handleImport, try_catch, map_toInsert, mbind, Try_bind, mret, Try_ret,
    get_state, effect, throw. simpl.
  destruct (mapM (toInsert (currentUser st)) elems) as [rows |]; [| reflexivity].
  by destruct insert_error.
Qed.

Lemma toInsert_record (u : User) (props : list (string * Js.Value)) :
  toInsert u (Js.JObj props)
  = Some (mkImportRow (Js.own_prop "name" props) (Js.own_prop "category" props)
            (Js.or (Js.own_prop "quantity" props) (Js.JNum 1))
            (Js.own_prop "expiry_date" props) (Js.own_prop "notes" props)
            (uid u)).
Proof. reflexivity. Qed.

Lemma mapM_toInsert_records (u : User) (elems : list Js.Value) :
  Forall is_record elems ->
  exists rows,
    mapM (toInsert u) elems = Some rows
    /\ Forall2 (fun elem row =>
                  row_user_id row = uid u
                  /\ (lacks_quantity elem -> row_quantity row = Js.JNum 1))
               elems rows.
Proof.
  induction 1 as [| elem elems [props ->] _ (rows & Hrows & Hall)].
  - exists []. by split; [| constructor].
  - eexists (_ :: rows). split.
    + rewrite mapM_Some. constructor; [apply toInsert_record | by apply mapM_Some].
    + constructor; [| exact Hall]. split; [reflexivity |].
      intros (props' & Heq & Hq). injection Heq as <-. simpl. by rewrite Hq.
Qed.

(** C8.  For an imported array of records, the import issues one insert
    into [expiry_items] with one row per record, in order; every row
    carries the id of the current user as [user_id], and every row built
    from a record without a [quantity] field has [quantity] 1. *)
Theorem import_sets_owner_and_default_quantity
    (elems : list Js.Value) (insert_error : option string) (st : Page) :
  Forall is_record elems ->
  exists rows,
    remote_calls (handleImport (Some (Some (Js.JArr elems))) insert_error st)
    = remote_calls st ++ [RemoteInsert "expiry_items" rows]
    /\ Forall2 (fun elem row =>
                  row_user_id row = uid (currentUser st)
                  /\ (lacks_quantity elem -> row_quantity row = Js.JNum 1))
               elems rows.
Proof.
  intros Hrec.
  destruct (mapM_toInsert_records (currentUser st) elems Hrec)
    as (rows & Hrows & Hall).
  exists rows. split; [| exact Hall].
  rewrite handleImport_array, Hrows. by destruct insert_error.
Qed.

(** Scenario D: two records without [quantity]. *)
Lemma import_sets_owner_and_default_quantity_witness :
  exists rows,
    remote_calls
      (handleImport
         (Some (Some (Js.JArr
            [Js.JObj [("name", Js.JStr "Milk"); ("expiry_date", Js.JStr "2024-04-02")];
             Js.JObj [("name", Js.JStr "Eggs"); ("expiry_date", Js.JStr "2024-04-09")]])))
         None (init alice))
    = [RemoteInsert "expiry_items" rows]
    /\ row_quantity <$> rows = [Js.JNum 1; Js.JNum 1]
    /\ row_user_id <$> rows = ["u1"; "u1"].
Proof.
  destruct (import_sets_owner_and_default_quantity
              [Js.JObj [("name", Js.JStr "Milk"); ("expiry_date", Js.JStr "2024-04-02")];
               Js.JObj [("name", Js.JStr "Eggs"); ("expiry_date", Js.JStr "2024-04-09")]]
              None (init alice)) as (rows & Hcalls & _).
  - repeat constructor; eexists; reflexivity.
  - exists rows. split; [exact Hcalls |].
    vm_compute in Hcalls. injection Hcalls as <-. by split.
Defined.

(** A present but falsy [quantity] (here 0) is replaced by 1 as well; a
    positive one is kept. *)
Example import_quantity_zero_becomes_one :
  toInsert alice (Js.JObj [("name", Js.JStr "Milk"); ("quantity", Js.JNum 0)])
  = Some (mkImportRow (Js.JStr "Milk") Js.JUndefined (Js.JNum 1)
            Js.JUndefined Js.JUndefined "u1")
  /\ (toInsert alice (Js.JObj [("quantity", Js.JNum 6)]) ≫= fun r => Some (row_quantity r))
     = Some (Js.JNum 6).
Proof. by split. Qed.

(** An array is not checked further: an element that is [null] makes the
    mapping throw before anything is sent, while other non-records are
    sent as rows of [undefined] fields. *)
Example import_array_of_non_records :
  remote_calls (handleImport (Some (Some (Js.JArr [Js.JNull]))) None (init alice))
  = []
  /\ remote_calls (handleImport (Some (Some (Js.JArr [Js.JNum 7]))) None (init alice))
     = [RemoteInsert "expiry_items"
          [mkImportRow Js.JUndefined Js.JUndefined (Js.JNum 1)
             Js.JUndefined Js.JUndefined "u1"]].
Proof. by split. Qed.

(** ** Notification scans *)

Lemma count_alerts_app (x : string) (th : Z) (l1 l2 : list Notification) :
  count_alerts x th (l1 ++ l2)
  = (count_alerts x th l1 + count_alerts x th l2)%nat.
Proof. unfold count_alerts. by rewrite List.filter_app, length_app. Qed.

Lemma notifyItem_permission (LocalTZA : Zone) (now : Z) (item : Item)
    (st : Notifier) :
  notificationPermission (notifyItem LocalTZA now item st)
  = notificationPermission st.
Proof.
  assert (forall t b g r,
             notificationPermission (showNotification t b g r st)
             = notificationPermission st) as Hshow.
  { intros t b g r. unfold showNotification.
    by destruct (notificationPermission st) eqn:E. }
  unfold notifyItem.
  repeat (match goal with |- context [if ?b then _ else _] => destruct b end);
    by rewrite ?Hshow.
Qed.

Lemma showNotification_count (t body i : string) (ri : bool) (st : Notifier)
    (x : string) (th : Z) :
  count_alerts x th (shown (showNotification t body ("expiry-" +:+ i) ri st))
  = (count_alerts x th (shown st)
     + match notificationPermission st with
       | granted =>
           if String.eqb i x && bool_decide (title_threshold t = Some th)
           then 1 else 0
       | _ => 0
       end)%nat.
Proof.
  unfold showNotification.
  destruct (notificationPermission st); try lia.
  cbn [shown]. rewrite count_alerts_app. f_equal.
  unfold count_alerts. cbn [List.filter]. unfold is_alert_for, alert_threshold.
  cbn [tag title].
  change (String.eqb ("expiry-" +:+ i) ("expiry-" +:+ x)) with (String.eqb i x).
  by destruct (String.eqb i x && bool_decide (title_threshold t = Some th)).
Qed.

(** Visiting one item adds one alert to the pair it fires for, none to
    any other pair. *)
Lemma notifyItem_count (LocalTZA : Zone) (now : Z) (item : Item)
    (st : Notifier) (x : string) (th : Z) :
  count_alerts x th (shown (notifyItem LocalTZA now item st))
  = (count_alerts x th (shown st)
     + if fires (notificationPermission st)
            (daysUntilExpiry LocalTZA now (parseDateOnly (expiry_date item)))
            item x th
       then 1 else 0)%nat.
Proof.
  unfold notifyItem, fires.
  generalize (daysUntilExpiry LocalTZA now (parseDateOnly (expiry_date item))).
  intros days.
  assert (forall t (k : Z),
             title_threshold t = Some k -> days = k ->
             k = 0 \/ k = 3 \/ k = 7 ->
             bool_decide (title_threshold t = Some th)
             = (days =? th) && ((th =? 0) || (th =? 3) || (th =? 7))) as Hsame.
  { intros t k -> -> Hk. destruct (Z.eqb_spec k th) as [<- | Hne].
    - rewrite bool_decide_eq_true_2 by reflexivity.
      by destruct Hk as [-> | [-> | ->]].
    - rewrite bool_decide_eq_false_2; [reflexivity | congruence]. }
  destruct (Z.eqb_spec days 0) as [E0 | N0];
    [| destruct (Z.eqb_spec days 3) as [E3 | N3];
       [| destruct (Z.eqb_spec days 7) as [E7 | N7]]].
  - rewrite showNotification_count, (Hsame _ 0) by (reflexivity || tauto).
    destruct (notificationPermission st); try reflexivity.
    by rewrite andb_assoc.
  - rewrite showNotification_count, (Hsame _ 3) by (reflexivity || tauto).
    destruct (notificationPermission st); try reflexivity.
    by rewrite andb_assoc.
  - rewrite showNotification_count, (Hsame _ 7) by (reflexivity || tauto).
    destruct (notificationPermission st); try reflexivity.
    by rewrite andb_assoc.
  - destruct (notificationPermission st); try lia.
    destruct (Z.eqb_spec days th) as [<- |];
      [| rewrite andb_false_r; cbn [andb]; lia].
    apply Z.eqb_neq in N0, N3, N7. rewrite N0, N3, N7.
    rewrite andb_false_r. lia.
Qed.

Lemma fires_other_id (perm : Permission) (days : Z) (item : Item)
    (x : string) (th : Z) :
  id item <> x -> fires perm days item x th = false.
Proof.
  intros Hne. unfold fires. destruct perm; try reflexivity.
  apply String.eqb_neq in Hne. by rewrite Hne.
Qed.

Lemma forEach_permission (LocalTZA : Zone) (clock : nat -> Z) (rows : list Item) :
  forall k st,
    notificationPermission (forEach_from LocalTZA clock k rows st)
    = notificationPermission st.
Proof.
  induction rows as [| item rows IH]; intros k st; [reflexivity |].
  simpl. by rewrite IH, notifyItem_permission.
Qed.

Lemma forEach_count_absent (LocalTZA : Zone) (clock : nat -> Z)
    (rows : list Item) (x : string) (th : Z) :
  x ∉ id <$> rows ->
  forall k st,
    count_alerts x th (shown (forEach_from LocalTZA clock k rows st))
    = count_alerts x th (shown st).
Proof.
  induction rows as [| item rows IH]; intros Hx k st; [reflexivity |].
  rewrite fmap_cons, not_elem_of_cons in Hx. destruct Hx as [Hne Hx].
  simpl. rewrite IH by exact Hx.
  rewrite notifyItem_count, fires_other_id by congruence. lia.
Qed.

Lemma forEach_count_at (LocalTZA : Zone) (clock : nat -> Z)
    (rows : list Item) (x : string) (th : Z) :
  NoDup (id <$> rows) ->
  forall j item k st,
    rows !! j = Some item -> id item = x ->
    count_alerts x th (shown (forEach_from LocalTZA clock k rows st))
    = (count_alerts x th (shown st)
       + if fires (notificationPermission st)
              (daysUntilExpiry LocalTZA (clock (k + j)%nat)
                 (parseDateOnly (expiry_date item)))
              item x th
         then 1 else 0)%nat.
Proof.
  induction rows as [| a rows IH]; intros Hnd j item k st Hj Hid;
    [discriminate |].
  rewrite fmap_cons, NoDup_cons in Hnd. destruct Hnd as [Ha Hnd].
  destruct j as [| j]; simpl in Hj |- *.
  - injection Hj as ->. rewrite Hid in Ha.
    rewrite forEach_count_absent by exact Ha.
    rewrite notifyItem_count. by replace (k + 0)%nat with k by lia.
  - assert (id a <> x) as Hne.
    { intros Heq. apply Ha. rewrite Heq, <- Hid.
      apply list_elem_of_fmap_2. by eapply list_elem_of_lookup_2. }
    rewrite (IH Hnd j item (S k)) by assumption.
    rewrite notifyItem_permission, notifyItem_count, fires_other_id by exact Hne.
    replace (S k + j)%nat with (k + S j)%nat by lia. lia.
Qed.

(** C5 (as amended).  One scan over rows with distinct ids raises at most
    one alert for a pair (item, threshold), and none while permission is
    not granted.  No record of raised alerts is kept between scans: with
    permission granted, every scan that finds the day count of the item
    equal to a threshold 0, 3 or 7 raises that alert once more. *)
Theorem scan_alerts_once_per_scan_not_once_per_lifetime
    (LocalTZA : Zone) (u : User) (rows : list Item) (clock : nat -> Z)
    (st : Notifier) (x : string) (th : Z) :
  NoDup (id <$> rows) ->
  let st' :=
    checkExpiringItems LocalTZA (Some u) (SelectData (Some rows)) clock st in
  (count_alerts x th (shown st') <= count_alerts x th (shown st) + 1)%nat
  /\ (notificationPermission st <> granted ->
      count_alerts x th (shown st') = count_alerts x th (shown st))
  /\ (forall j item,
        notificationPermission st = granted ->
        rows !! j = Some item -> id item = x ->
        daysUntilExpiry LocalTZA (clock j) (parseDateOnly (expiry_date item)) = th ->
        th = 0 \/ th = 3 \/ th = 7 ->
        count_alerts x th (shown st') = S (count_alerts x th (shown st)))
  /\ notificationPermission st' = notificationPermission st.
Proof.
  intros Hnd. simpl.
  assert (x ∉ id <$> rows
          \/ exists j item, rows !! j = Some item /\ id item = x) as Hcases.
  { destruct (decide (x ∈ id <$> rows)) as [Hin | Hout]; [right | by left].
    apply list_elem_of_fmap in Hin as (item & -> & Hin).
    apply list_elem_of_lookup in Hin as [j Hj]. by exists j, item. }
  split; [| split; [| split]].
  - destruct Hcases as [Hout | (j & item & Hj & Hid)].
    + rewrite forEach_count_absent by exact Hout. lia.
    + rewrite (forEach_count_at _ _ _ _ _ Hnd j item 0 st Hj Hid).
      destruct (fires _ _ _ _ _); lia.
  - intros Hperm. destruct Hcases as [Hout | (j & item & Hj & Hid)].
    + by rewrite forEach_count_absent.
    + rewrite (forEach_count_at _ _ _ _ _ Hnd j item 0 st Hj Hid).
      unfold fires. destruct (notificationPermission st); (congruence || lia).
  - intros j item Hperm Hj Hid Hdays Hth.
    rewrite (forEach_count_at _ _ _ _ _ Hnd j item 0 st Hj Hid).
    simpl. rewrite Hdays, Hperm. unfold fires.
    rewrite Hid, String.eqb_refl, Z.eqb_refl.
    destruct Hth as [-> | [-> | ->]]; simpl; lia.
  - apply forEach_permission.
Qed.

(** Scenario A, first scan: one alert for threshold 7. *)
Lemma scan_alerts_once_per_scan_not_once_per_lifetime_witness :
  count_alerts "a" 7
    (shown (checkExpiringItems (fixedZone 0) (Some alice)
              (SelectData (Some [eggs 19900; milk 19820]))
              (fun _ => 19813 * msPerDay + 43200000)
              (mkNotifier granted [])))
  = 1%nat.
Proof.
  destruct (scan_alerts_once_per_scan_not_once_per_lifetime (fixedZone 0) alice
              [eggs 19900; milk 19820] (fun _ => 19813 * msPerDay + 43200000)
              (mkNotifier granted []) "a" 7) as (_ & _ & Hfire & _).
  - apply (bool_decide_unpack _). vm_compute. exact I.
  - apply (Hfire 1%nat (milk 19820)); try reflexivity. right. by right.
Defined.

(** C5, counterexample.  Permission is granted and the item ["a"] is seven
    days from expiry; the scan runs twice on the same day (as the check at
    start-up and the six-hourly timer do) and two alerts are raised for
    the pair (["a"], 7). *)
Lemma second_scan_repeats_alert :
  let scan :=
    checkExpiringItems (fixedZone 0) (Some alice)
      (SelectData (Some [milk 19820])) (fun _ => 19813 * msPerDay + 43200000) in
  count_alerts "a" 7 (shown (scan (scan (mkNotifier granted [])))) = 2%nat
  /\ ~ (count_alerts "a" 7 (shown (scan (scan (mkNotifier granted []))))
        <= 1)%nat.
Proof. split; [reflexivity |]. vm_compute. lia. Qed.

(** ** Events as list transformers *)

Lemma update_first_findIndex (r : Item) (l : list Item) (i : Z) :
  0 <= i ->
  let idx := findIndex_from (fun item => String.eqb (id item) (id r)) l i in
  (idx = -1 /\ update_first r l = l)
  \/ (i <= idx /\ <[Z.to_nat (idx - i) := r]> l = update_first r l).
Proof.
  revert i. induction l as [| x l IH]; intros i Hi; [by left |].
  simpl. destruct (String.eqb (id x) (id r)) eqn:E.
  - right. split; [lia |]. by replace (Z.to_nat (i - i)) with 0%nat by lia.
  - destruct (IH (i + 1)) as [[Hm Hl] | [Hle Hl]]; [lia | |].
    + left. split; [exact Hm |]. simpl in Hl. by rewrite Hl.
    + right. split; [lia |]. simpl in Hl. rewrite <- Hl.
      set (idx := findIndex_from _ l (i + 1)) in *.
      replace (Z.to_nat (idx - i)) with (S (Z.to_nat (idx - (i + 1)))) by lia.
      reflexivity.
Qed.

Lemma handle_items (payload : Payload) (st : Page) :
  items (handleRealtimeChange payload st) = apply_items payload (items st).
Proof.
  destruct payload as [r | r | x]; try reflexivity.
  unfold handleRealtimeChange, findIndex. simpl apply_items.
  destruct (update_first_findIndex r (items st) 0) as [[Hm Hl] | [Hle Hl]];
    [lia | |].
  - rewrite Hm. simpl. by rewrite Hl.
  - destruct (Z.eqb_spec
                (findIndex_from (fun item => String.eqb (id item) (id r)) (items st) 0)
                (-1)) as [E | _]; [lia |].
    simpl. rewrite <- Hl. by rewrite Z.sub_0_r.
Qed.

Lemma update_first_absent (r : Item) (l : list Item) :
  Forall (fun x => id x <> id r) l -> update_first r l = l.
Proof.
  induction 1 as [| x l Hx _ IH]; [reflexivity |].
  simpl. apply String.eqb_neq in Hx. by rewrite Hx, IH.
Qed.

Lemma update_first_split (r : Item) (l : list Item) :
  (Forall (fun x => id x <> id r) l /\ update_first r l = l)
  \/ (exists l1 old l2,
        l = l1 ++ old :: l2 /\ Forall (fun x => id x <> id r) l1
        /\ id old = id r /\ update_first r l = l1 ++ r :: l2).
Proof.
  induction l as [| x l IH]; [left; by split |].
  simpl. destruct (String.eqb_spec (id x) (id r)) as [E | N].
  - right. exists [], x, l. by repeat split.
  - destruct IH as [[Hall Hl] | (l1 & old & l2 & -> & Hall & Hid & Hl)].
    + left. split; [by constructor | by rewrite Hl].
    + right. exists (x :: l1), old, l2. rewrite Hl.
      repeat split; [by constructor | exact Hid].
Qed.

(** An UPDATE event for an id the store holds overwrites the first item
    with that id, where it stands, and touches nothing else: the items
    before it, the items after it (later items with the same id included)
    and the length of the list are as before. *)
Theorem update_overwrites_first_occurrence_only (r : Item) (st : Page) :
  (1 <= count_id (id r) (items st))%nat ->
  exists l1 old l2,
    items st = l1 ++ old :: l2
    /\ count_id (id r) l1 = 0%nat
    /\ id old = id r
    /\ items (handleRealtimeChange (UPDATE r) st) = l1 ++ r :: l2.
Proof.
  intros Hc. rewrite handle_items. simpl.
  destruct (update_first_split r (items st))
    as [[Hall _] | (l1 & old & l2 & Hl & Hall & Hid & Hu)].
  - apply count_id_zero in Hall. lia.
  - exists l1, old, l2. by rewrite count_id_zero.
Qed.

Lemma update_overwrites_first_occurrence_only_witness :
  exists l1 old l2,
    [eggs 4; milk 5; milk 6] = l1 ++ old :: l2
    /\ count_id "a" l1 = 0%nat
    /\ id old = "a"
    /\ items (handleRealtimeChange (UPDATE (milk 9))
                (set_items [eggs 4; milk 5; milk 6] (init alice)))
       = l1 ++ milk 9 :: l2.
Proof.
  apply (update_overwrites_first_occurrence_only (milk 9)
           (set_items [eggs 4; milk 5; milk 6] (init alice))).
  vm_compute. lia.
Defined.

(** Unlike INSERT, UPDATE is idempotent on the collection: a second
    delivery of the same UPDATE event leaves the items as the first
    delivery left them. *)
Theorem update_twice_is_update_once (r : Item) (st : Page) :
  items (handleRealtimeChange (UPDATE r) (handleRealtimeChange (UPDATE r) st))
  = items (handleRealtimeChange (UPDATE r) st).
Proof.
  rewrite !handle_items. simpl.
  destruct (update_first_split r (items st))
    as [[_ Hl] | (l1 & old & l2 & _ & Hall & _ & ->)]; [by rewrite !Hl |].
  induction Hall as [| x l1 Hx _ IH]; simpl.
  - by rewrite String.eqb_refl.
  - apply String.eqb_neq in Hx. by rewrite Hx, IH.
Qed.

(** An INSERT followed by a DELETE for the same id leaves the collection
    as the DELETE alone would; when the id was not in the store, the pair
    restores the collection exactly. *)
Theorem insert_then_delete_restores (r : Item) (st : Page) :
  let st' := handleRealtimeChange (DELETE (id r))
               (handleRealtimeChange (INSERT r) st) in
  items st' = items (handleRealtimeChange (DELETE (id r)) st)
  /\ (count_id (id r) (items st) = 0%nat -> items st' = items st).
Proof.
  simpl. rewrite filter_app, filter_cons, filter_nil.
  destruct (decide (id r <> id r)) as [Hne |]; [done |].
  rewrite app_nil_r. split; [reflexivity |].
  intros H0. apply count_id_zero in H0.
  induction H0 as [| x l Hx _ IH]; [reflexivity |].
  by rewrite filter_cons_True, IH.
Qed.

Lemma insert_then_delete_restores_witness :
  items (handleRealtimeChange (DELETE "b")
           (handleRealtimeChange (INSERT (eggs 9))
              (set_items [milk 5; milk 6] (init alice))))
  = [milk 5; milk 6].
Proof.
  destruct (insert_then_delete_restores (eggs 9)
              (set_items [milk 5; milk 6] (init alice))) as [_ H].
  apply H. reflexivity.
Defined.

(** Sizes: INSERT makes the collection one longer, UPDATE keeps its
    length, and DELETE for [x] shortens it by the number of items that had
    the id [x]. *)
Theorem event_changes_length (st : Page) :
  (forall r, length (items (handleRealtimeChange (INSERT r) st))
             = S (length (items st)))
  /\ (forall r, length (items (handleRealtimeChange (UPDATE r) st))
                = length (items st))
  /\ (forall x, (length (items (handleRealtimeChange (DELETE x) st))
                 + count_id x (items st))%nat
                = length (items st)).
Proof.
  split; [| split].
  - intros r. simpl. rewrite length_app. simpl. lia.
  - intros r. pose proof (f_equal length (update_keeps_ids r st)) as H.
    by rewrite !length_fmap in H.
  - intros x. simpl. unfold count_id.
    induction (items st) as [| a l IH]; [reflexivity |].
    rewrite !filter_cons.
    destruct (decide (id a <> x)), (decide (id a = x));
      try (exfalso; tauto); cbn [length]; lia.
Qed.

Lemma update_first_comm (a b : Item) (l : list Item) :
  id a <> id b ->
  update_first a (update_first b l) = update_first b (update_first a l).
Proof.
  intros Hab.
  assert (String.eqb (id a) (id b) = false) as Hab' by by apply String.eqb_neq.
  assert (String.eqb (id b) (id a) = false) as Hba'
    by (apply String.eqb_neq; congruence).
  induction l as [| x l IH]; [reflexivity |]. simpl.
  destruct (String.eqb (id x) (id b)) eqn:Eb,
           (String.eqb (id x) (id a)) eqn:Ea; simpl;
    rewrite ?Ea, ?Eb, ?Hab', ?Hba'; try reflexivity.
  - apply String.eqb_eq in Ea, Eb. congruence.
  - by rewrite IH.
Qed.

Lemma update_first_filter (a : Item) (x : string) (l : list Item) :
  id a <> x ->
  update_first a (filter (fun item => id item <> x) l)
  = filter (fun item => id item <> x) (update_first a l).
Proof.
  intros Hax. induction l as [| y l IH]; [reflexivity |].
  cbn [update_first]. destruct (String.eqb (id y) (id a)) eqn:Ea.
  - apply String.eqb_eq in Ea as Ea'.
    rewrite !filter_cons_True by congruence.
    cbn [update_first]. by rewrite Ea.
  - rewrite !filter_cons. destruct (decide (id y <> x)); [| exact IH].
    cbn [update_first]. by rewrite Ea, IH.
Qed.

Lemma update_first_snoc (a b : Item) (l : list Item) :
  id a <> id b -> update_first a (l ++ [b]) = update_first a l ++ [b].
Proof.
  intros Hab. induction l as [| y l IH]; simpl.
  - destruct (String.eqb_spec (id b) (id a)); [congruence | reflexivity].
  - destruct (String.eqb_spec (id y) (id a)); [reflexivity | by rewrite IH].
Qed.

Lemma filter_snoc_other (b : Item) (x : string) (l : list Item) :
  id b <> x ->
  filter (fun item => id item <> x) (l ++ [b])
  = filter (fun item => id item <> x) l ++ [b].
Proof.
  intros Hb. rewrite filter_app, filter_cons, filter_nil.
  by destruct (decide (id b <> x)).
Qed.

Lemma apply_items_comm (p q : Payload) (l : list Item) :
  target p <> target q ->
  apply_items p (apply_items q l) ≡ₚ apply_items q (apply_items p l)
  /\ (is_insert p && is_insert q = false ->
      apply_items p (apply_items q l) = apply_items q (apply_items p l)).
Proof.
  intros Hpq.
  destruct p as [a | a | x], q as [b | b | y]; simpl in *.
  - split; [| discriminate]. rewrite <- !app_assoc. f_equiv. apply Permutation_swap.
  - rewrite update_first_snoc by congruence. by split.
  - rewrite filter_snoc_other by exact Hpq. by split.
  - rewrite update_first_snoc by exact Hpq. by split.
  - rewrite update_first_comm by exact Hpq. by split.
  - rewrite update_first_filter by exact Hpq. by split.
  - rewrite filter_snoc_other by congruence. by split.
  - rewrite update_first_filter by congruence. by split.
  - rewrite !list_filter_filter.
    assert (filter (fun item => id item <> x /\ id item <> y) l
            = filter (fun item => id item <> y /\ id item <> x) l) as ->;
      [apply list_filter_iff; tauto | by split].
Qed.

(** Two events about different ids may arrive in either order: the
    resulting collections hold the same items, and are the same list
    unless both events are INSERTs (each INSERT appends, so two of them
    end in the order of arrival). *)
Theorem events_on_different_ids_commute (p q : Payload) (st : Page) :
  target p <> target q ->
  items (handleRealtimeChange p (handleRealtimeChange q st))
    ≡ₚ items (handleRealtimeChange q (handleRealtimeChange p st))
  /\ (is_insert p && is_insert q = false ->
      items (handleRealtimeChange p (handleRealtimeChange q st))
      = items (handleRealtimeChange q (handleRealtimeChange p st))).
Proof. intros Hpq. rewrite !handle_items. by apply apply_items_comm. Qed.

Lemma events_on_different_ids_commute_witness :
  items (handleRealtimeChange (UPDATE (milk 9))
           (handleRealtimeChange (DELETE "b")
              (set_items [eggs 4; milk 5] (init alice))))
  = items (handleRealtimeChange (DELETE "b")
             (handleRealtimeChange (UPDATE (milk 9))
                (set_items [eggs 4; milk 5] (init alice)))).
Proof.
  destruct (events_on_different_ids_commute (UPDATE (milk 9)) (DELETE "b")
              (set_items [eggs 4; milk 5] (init alice))) as [_ H].
  - discriminate.
  - apply H. reflexivity.
Defined.

(** Two INSERTs for different ids end in the order of arrival. *)
Example inserts_keep_arrival_order :
  items (run [Feed (INSERT (milk 5)); Feed (INSERT (eggs 4))] (init alice))
  = [milk 5; eggs 4]
  /\ items (run [Feed (INSERT (eggs 4)); Feed (INSERT (milk 5))] (init alice))
     = [eggs 4; milk 5].
Proof. by split. Qed.

(** ** Filtered views, counters and badges *)

Lemma daysUntilExpiry_same_day (LocalTZA : Zone) (a b e : Z) :
  setHours0 LocalTZA a = setHours0 LocalTZA b ->
  daysUntilExpiry LocalTZA a e = daysUntilExpiry LocalTZA b e.
Proof. unfold daysUntilExpiry. by intros ->. Qed.

Lemma filter_reading_same_day (LocalTZA : Zone) (clock : nat -> Z)
    (p : Z -> Item -> bool) (l : list Item) :
  Views.same_day LocalTZA clock ->
  (forall a b x, setHours0 LocalTZA a = setHours0 LocalTZA b -> p a x = p b x) ->
  forall k, Views.filter_reading clock k p l = List.filter (p (clock 0%nat)) l.
Proof.
  intros Hday Hp. induction l as [| x l IH]; intros k; [reflexivity |].
  simpl. rewrite (Hp (clock k) (clock 0%nat)) by apply Hday.
  by rewrite IH.
Qed.

Lemma isSoon_same_day (LocalTZA : Zone) (a b : Z) (x : Item) :
  setHours0 LocalTZA a = setHours0 LocalTZA b ->
  Views.isSoon LocalTZA a x = Views.isSoon LocalTZA b x.
Proof.
  intros H. unfold Views.isSoon. by rewrite (daysUntilExpiry_same_day _ a b).
Qed.

Lemma isExpired_same_day (LocalTZA : Zone) (a b : Z) (x : Item) :
  setHours0 LocalTZA a = setHours0 LocalTZA b ->
  Views.isExpired LocalTZA a x = Views.isExpired LocalTZA b x.
Proof.
  intros H. unfold Views.isExpired. by rewrite (daysUntilExpiry_same_day _ a b).
Qed.





(** When midnight passes between the two passes of [updateCounts], an
    item due today is counted as expiring soon and as expired. *)
Example counters_across_midnight :
  Views.updateCounts (fixedZone 0)
    (fun k => if (k <? 1)%nat then 19813 * msPerDay + 86399999
              else 19814 * msPerDay)
    [milk 19813]
  = Views.mkCounts 1 1 1.
Proof. reflexivity. Qed.

(** For one reading of the clock, the filters, the badge and the exported
    table classify an item alike: the "expired" filter takes exactly the
    items whose badge is Expired, which are the rows the export marks as
    expired; the "soon" filter takes exactly the items whose badge is
    Expires Today or the soon badge; no item passes both filters. *)
Theorem filters_agree_with_badge (LocalTZA : Zone) (now : Z) (item : Item) :
  let badge := getExpiryStatus LocalTZA now (parseDateOnly (expiry_date item)) in
  (Views.isExpired LocalTZA now item = true <-> status badge = "expired")
  /\ (Views.isExpired LocalTZA now item
      = snd (Views.exportStatus LocalTZA now item))
  /\ (Views.isSoon LocalTZA now item = true
      <-> status badge = "today" \/ status badge = "soon")
  /\ (Views.isSoon LocalTZA now item && Views.isExpired LocalTZA now item = false).
Proof.
  unfold Views.isExpired, Views.isSoon, Views.exportStatus, getExpiryStatus.
  generalize (daysUntilExpiry LocalTZA now (parseDateOnly (expiry_date item))).
  intros days. cbn zeta. rewrite Z.geb_leb.
  destruct (Z.ltb_spec days 0), (Z.eqb_spec days 0), (Z.leb_spec days 7),
    (Z.leb_spec days 30), (Z.leb_spec 0 days);
    try lia; cbn; intuition (discriminate || reflexivity).
Qed.

Lemma getExpiryStatus_same_day (LocalTZA : Zone) (a b e : Z) :
  setHours0 LocalTZA a = setHours0 LocalTZA b ->
  getExpiryStatus LocalTZA a e = getExpiryStatus LocalTZA b e.
Proof.
  intros H. unfold getExpiryStatus. by rewrite (daysUntilExpiry_same_day _ a b).
Qed.

Lemma isExpired_badge (LocalTZA : Zone) (now : Z) (x : Item) :
  Views.isExpired LocalTZA now x = true ->
  status (getExpiryStatus LocalTZA now (parseDateOnly (expiry_date x))) = "expired".
Proof.
  unfold Views.isExpired, getExpiryStatus. by intros ->.
Qed.

Lemma isSoon_badge (LocalTZA : Zone) (now : Z) (x : Item) :
  Views.isSoon LocalTZA now x = true ->
  let badge := getExpiryStatus LocalTZA now (parseDateOnly (expiry_date x)) in
  status badge = "today" \/ status badge = "soon".
Proof.
  unfold Views.isSoon, getExpiryStatus. rewrite andb_true_iff, Z.geb_leb.
  intros [H0 H7]. apply Z.leb_le in H0. rewrite H7.
  destruct (Z.ltb_spec (daysUntilExpiry LocalTZA now (parseDateOnly (expiry_date x))) 0);
    [lia |].
  destruct (Z.eqb_spec (daysUntilExpiry LocalTZA now (parseDateOnly (expiry_date x))) 0);
    simpl; auto.
Qed.

Lemma filter_reading_sublist (clock : nat -> Z) (p : Z -> Item -> bool)
    (l : list Item) :
  forall k, sublist (Views.filter_reading clock k p l) l.
Proof.
  induction l as [| x l IH]; intros k; [constructor |]. simpl.
  destruct (p (clock k) x); [by apply sublist_skip | by apply sublist_cons].
Qed.

Lemma cards_from_items (LocalTZA : Zone) (clock : nat -> Z) (l : list Item) :
  forall k, Views.card_item <$> Views.cards_from LocalTZA clock k l = l.
Proof.
  induction l as [| x l IH]; intros k; [reflexivity |].
  simpl. by rewrite IH.
Qed.

Lemma cards_from_badges (LocalTZA : Zone) (clock : nat -> Z)
    (P : ExpiryStatus -> Prop) (l : list Item) :
  Views.same_day LocalTZA clock ->
  Forall (fun x => P (getExpiryStatus LocalTZA (clock 0%nat)
                        (parseDateOnly (expiry_date x)))) l ->
  forall k, Forall (fun c => P (Views.card_badge c))
                   (Views.cards_from LocalTZA clock k l).
Proof.
  intros Hday. induction 1 as [| x l Hx _ IH]; intros k; [constructor |].
  simpl. constructor; [| apply IH]. simpl.
  by rewrite (getExpiryStatus_same_day _ (clock k) (clock 0%nat)).
Qed.

(** While all readings of the clock fall on one local day, [renderItems]
    shows the empty-state panel exactly when no item passes the current
    filter; otherwise the grid holds one card per passing item, in the
    order of the collection, and under the "expired" filter every card
    carries the Expired badge, under the "soon" filter every card carries
    the Expires Today or the soon badge. *)
Theorem render_shows_filtered_items_with_their_badges
    (LocalTZA : Zone) (currentFilter : string) (clock : nat -> Z)
    (items : list Item) :
  Views.same_day LocalTZA clock ->
  (Views.renderItems LocalTZA currentFilter clock items = Views.EmptyState
   <-> Views.filteredItems LocalTZA currentFilter clock items = [])
  /\ forall cards,
       Views.renderItems LocalTZA currentFilter clock items = Views.Grid cards ->
       Views.card_item <$> cards
         = Views.filteredItems LocalTZA currentFilter clock items
       /\ sublist (Views.card_item <$> cards) items
       /\ (currentFilter = "expired" ->
           Forall (fun c => status (Views.card_badge c) = "expired") cards)
       /\ (currentFilter = "soon" ->
           Forall (fun c => status (Views.card_badge c) = "today"
                            \/ status (Views.card_badge c) = "soon") cards).
Proof.
  intros Hday. unfold Views.renderItems.
  set (filtered := Views.filteredItems LocalTZA currentFilter clock items).
  split.
  - destruct filtered; simpl; split; (discriminate || reflexivity).
  - intros cards.
    destruct (Nat.eqb_spec (length filtered) 0); [discriminate |].
    intros Hgrid. injection Hgrid as <-. rewrite cards_from_items.
    split; [reflexivity |]. split; [| split].
    + subst filtered. unfold Views.filteredItems.
      destruct (String.eqb currentFilter "soon");
        [apply filter_reading_sublist |].
      destruct (String.eqb currentFilter "expired");
        [apply filter_reading_sublist | reflexivity].
    + intros ->. apply (cards_from_badges _ _ (fun b => status b = "expired"));
        [exact Hday |].
      subst filtered. unfold Views.filteredItems. simpl.
      rewrite (filter_reading_same_day LocalTZA)
        by (exact Hday || apply isExpired_same_day).
      apply Forall_forall. intros x Hx. apply list_elem_of_In, filter_In in Hx.
      destruct Hx as [_ Hx]. by apply isExpired_badge.
    + intros ->.
      apply (cards_from_badges _ _
               (fun b => status b = "today" \/ status b = "soon"));
        [exact Hday |].
      subst filtered. unfold Views.filteredItems. simpl.
      rewrite (filter_reading_same_day LocalTZA)
        by (exact Hday || apply isSoon_same_day).
      apply Forall_forall. intros x Hx. apply list_elem_of_In, filter_In in Hx.
      destruct Hx as [_ Hx]. by apply isSoon_badge.
Qed.

Lemma render_shows_filtered_items_with_their_badges_witness :
  exists cards,
    Views.renderItems (fixedZone 0) "expired"
      (fun _ => 19813 * msPerDay + 43200000)
      [milk 19812; eggs 19813; milk 19815]
    = Views.Grid cards
    /\ Views.card_item <$> cards = [milk 19812]
    /\ Forall (fun c => status (Views.card_badge c) = "expired") cards.
Proof.
  eexists. split; [reflexivity |].
  destruct (render_shows_filtered_items_with_their_badges (fixedZone 0)
              "expired" (fun _ => 19813 * msPerDay + 43200000)
              [milk 19812; eggs 19813; milk 19815]) as [_ H].
  - intros j k. reflexivity.
  - destruct (H _ eq_refl) as (Hitems & _ & Hbadge & _).
    split; [exact Hitems | by apply Hbadge].
Defined.

(** ** What a scan may raise *)

Lemma notifyItem_shown (LocalTZA : Zone) (now : Z) (item : Item) (st : Notifier) :
  exists new,
    shown (notifyItem LocalTZA now item st) = shown st ++ new
    /\ (length new <= 1)%nat
    /\ (notificationPermission st <> granted -> new = [])
    /\ Forall (fun n =>
                 tag n = "expiry-" +:+ id item
                 /\ alert_threshold n
                    = Some (daysUntilExpiry LocalTZA now
                              (parseDateOnly (expiry_date item)))) new.
Proof.
  unfold notifyItem, showNotification.
  set (days := daysUntilExpiry LocalTZA now (parseDateOnly (expiry_date item))).
  assert (exists new : list Notification,
             shown st = shown st ++ new /\ (length new <= 1)%nat
             /\ (notificationPermission st <> granted -> new = [])
             /\ Forall (fun n => tag n = "expiry-" +:+ id item
                                 /\ alert_threshold n = Some days) new) as Hnone.
  { exists []. rewrite app_nil_r. repeat split; [simpl; lia | constructor]. }
  destruct (Z.eqb_spec days 0) as [-> |];
    [| destruct (Z.eqb_spec days 3) as [-> |];
       [| destruct (Z.eqb_spec days 7) as [-> |]; [| exact Hnone]]];
    (destruct (notificationPermission st) eqn:Hperm; [exact Hnone | | exact Hnone]);
    eexists [_]; (split; [reflexivity |]);
    (split; [simpl; lia |]); (split; [congruence |]);
    by repeat constructor.
Qed.

Lemma forEach_shown (LocalTZA : Zone) (clock : nat -> Z) (rows : list Item) :
  forall k st,
  exists new,
    shown (forEach_from LocalTZA clock k rows st) = shown st ++ new
    /\ (length new <= length rows)%nat
    /\ (notificationPermission st <> granted -> new = [])
    /\ Forall (fun n =>
                 exists j item,
                   rows !! j = Some item
                   /\ tag n = "expiry-" +:+ id item
                   /\ alert_threshold n
                      = Some (daysUntilExpiry LocalTZA (clock (k + j)%nat)
                                (parseDateOnly (expiry_date item)))) new.
Proof.
  induction rows as [| item rows IH]; intros k st.
  - exists []. rewrite app_nil_r. by repeat split; [| constructor].
  - simpl.
    destruct (notifyItem_shown LocalTZA (clock k) item st)
      as (new1 & Hs1 & Hl1 & Hp1 & Hall1).
    destruct (IH (S k) (notifyItem LocalTZA (clock k) item st))
      as (new2 & Hs2 & Hl2 & Hp2 & Hall2).
    exists (new1 ++ new2). rewrite Hs2, Hs1, app_assoc.
    split; [reflexivity |]. split; [rewrite length_app; lia |]. split.
    + intros Hperm. rewrite Hp1 by exact Hperm.
      rewrite Hp2; [reflexivity |]. by rewrite notifyItem_permission.
    + apply Forall_app. split.
      * eapply Forall_impl; [exact Hall1 |]. intros n [Ht Ha].
        exists 0%nat, item. replace (k + 0)%nat with k by lia. by repeat split.
      * eapply Forall_impl; [exact Hall2 |]. intros n (j & x & Hj & Ht & Ha).
        exists (S j), x. replace (k + S j)%nat with (S k + j)%nat by lia.
        by repeat split.
Qed.

(** A scan only adds to the notifications raised so far, at most one per
    fetched row, and none unless permission is granted, a user is signed
    in and the select delivered rows.  Every notification it raises
    belongs to a fetched row whose day count, at the moment the row was
    visited, was 0, 3 or 7: its tag is [expiry-] followed by the id of
    the row and its title is the one of that day count.  An overdue item,
    or one that passed a threshold while no scan ran, raises nothing. *)
Theorem scan_raises_only_threshold_alerts
    (LocalTZA : Zone) (user : option User) (res : SelectResult)
    (clock : nat -> Z) (st : Notifier) :
  exists new,
    shown (checkExpiringItems LocalTZA user res clock st) = shown st ++ new
    /\ (notificationPermission st <> granted -> new = [])
    /\ (user = None -> new = [])
    /\ (forall rows, res = SelectData (Some rows) ->
                     (length new <= length rows)%nat)
    /\ forall n, n ∈ new ->
         exists rows j item days,
           res = SelectData (Some rows)
           /\ rows !! j = Some item
           /\ days = daysUntilExpiry LocalTZA (clock j)
                       (parseDateOnly (expiry_date item))
           /\ (days = 0 \/ days = 3 \/ days = 7)
           /\ tag n = "expiry-" +:+ id item
           /\ alert_threshold n = Some days.
Proof.
  assert (exists new : list Notification,
             shown st = shown st ++ new
             /\ (notificationPermission st <> granted -> new = [])
             /\ (user = None -> new = [])
             /\ (forall rows, res = SelectData (Some rows) ->
                              (length new <= length rows)%nat)
             /\ forall n, n ∈ new ->
                  exists rows j item days,
                    res = SelectData (Some rows)
                    /\ rows !! j = Some item
                    /\ days = daysUntilExpiry LocalTZA (clock j)
                                (parseDateOnly (expiry_date item))
                    /\ (days = 0 \/ days = 3 \/ days = 7)
                    /\ tag n = "expiry-" +:+ id item
                    /\ alert_threshold n = Some days) as Hnone.
  { exists []. rewrite app_nil_r. repeat split; [simpl; lia |].
    intros n Hn. by apply elem_of_nil in Hn. }
  destruct user as [u |]; [| exact Hnone].
  destruct res as [[rows |] | msg]; [| exact Hnone | exact Hnone].
  simpl. destruct (forEach_shown LocalTZA clock rows 0 st)
    as (new & Hs & Hl & Hp & Hall).
  exists new. split; [exact Hs |]. split; [exact Hp |]. split; [discriminate |].
  split; [by intros rows' [= <-] |].
  intros n Hn. rewrite Forall_forall in Hall.
  destruct (Hall n Hn) as (j & item & Hj & Ht & Ha).
  exists rows, j, item, (daysUntilExpiry LocalTZA (clock j)
                           (parseDateOnly (expiry_date item))).
  repeat split; try assumption.
  unfold alert_threshold, title_threshold in Ha.
  repeat (match type of Ha with
          | (if ?b then _ else _) = _ => destruct b
          end);
    try discriminate; injection Ha as <-; auto.
Qed.

Lemma scan_raises_only_threshold_alerts_witness :
  shown (checkExpiringItems (fixedZone 0) (Some alice)
           (SelectData (Some [milk 19812; eggs 19815]))
           (fun _ => 19813 * msPerDay + 43200000) (mkNotifier default []))
  = [].
Proof.
  destruct (scan_raises_only_threshold_alerts (fixedZone 0) (Some alice)
              (SelectData (Some [milk 19812; eggs 19815]))
              (fun _ => 19813 * msPerDay + 43200000) (mkNotifier default []))
    as (new & Hs & Hp & _).
  rewrite Hs, Hp; [reflexivity | discriminate].
Defined.

(** An item overdue by one day, one due in two days and one due in three
    days: only the last raises a notification. *)
Example scan_skips_overdue_and_missed_thresholds :
  tag <$> shown (checkExpiringItems (fixedZone 0) (Some alice)
                   (SelectData
                      (Some [mkItem "x" "u1" "Old" None 19812 None None 1 0 0;
                             mkItem "y" "u1" "Two" None 19815 None None 1 0 0;
                             mkItem "z" "u1" "Three" None 19816 None None 1 0 0]))
                   (fun _ => 19813 * msPerDay + 43200000)
                   (mkNotifier granted []))
  = ["expiry-z"].
Proof. reflexivity. Qed.

(** ** Dates written as [YYYY-MM-DD] and the local day *)

Lemma Day_of_date_only (offset day : Z) :
  (0 <= offset < msPerDay -> Day (parseDateOnly day + offset) = day)
  /\ (- msPerDay <= offset < 0 -> Day (parseDateOnly day + offset) = day - 1).
Proof.
  unfold Day, parseDateOnly, MakeDate. pose proof msPerDay_pos as HD.
  split; intros Ho.
  - rewrite Z.add_0_r, Z.add_comm, Z.div_add by lia.
    rewrite Z.div_small by lia. lia.
  - replace (day * msPerDay + 0 + offset)
      with ((offset + msPerDay) + (day - 1) * msPerDay) by lia.
    rewrite Z.div_add by lia. rewrite Z.div_small by lia. lia.
Qed.

(** The date of an item reaches the page as [YYYY-MM-DD] and is read as
    midnight UTC before it is normalized in local time.  In a zone at or
    east of UTC (constant offset from 0 up to 24 hours) the day count is
    the item's date minus the local date.  In a zone west of UTC
    (constant offset down to -24 hours) it is one less: the item counts as
    due on the local day before its date and as expired on its date. *)
Theorem date_only_expiry_is_a_day_early_west_of_utc (offset now day : Z) :
  let days := daysUntilExpiry (fixedZone offset) now (parseDateOnly day) in
  let today := Day (now + offset) in
  (0 <= offset < msPerDay -> days = day - today)
  /\ (- msPerDay <= offset < 0 -> days = day - 1 - today).
Proof.
  cbn zeta. rewrite (daysUntilExpiry_fixed (fixedZone offset) offset)
    by reflexivity.
  destruct (Day_of_date_only offset day) as [He Hw].
  split; intros Ho; [rewrite He | rewrite Hw]; (exact Ho || reflexivity).
Qed.

(** At 12:00 local time on 2024-03-31 in a zone five hours behind UTC, an
    item dated 2024-03-31 is reported as expired. *)
Lemma date_only_expiry_is_a_day_early_west_of_utc_witness :
  daysUntilExpiry (fixedZone (-18000000)) (19813 * msPerDay + 61200000)
    (parseDateOnly 19813) = -1
  /\ status (getExpiryStatus (fixedZone (-18000000))
               (19813 * msPerDay + 61200000) (parseDateOnly 19813))
     = "expired".
Proof.
  split; [| reflexivity].
  destruct (date_only_expiry_is_a_day_early_west_of_utc (-18000000)
              (19813 * msPerDay + 61200000) 19813) as [_ H].
  rewrite H; [reflexivity | by vm_compute].
Defined.

(** ** The daily check *)

Lemma TimeWithinDay_at_nine (D k : Z) :
  Scheduling.TimeWithinDay (D * msPerDay + 9 * 3600000 + k * msPerDay)
  = 9 * 3600000.
Proof.
  unfold Scheduling.TimeWithinDay.
  replace (D * msPerDay + 9 * 3600000 + k * msPerDay)
    with (9 * 3600000 + (D + k) * msPerDay) by lia.
  rewrite Z.mod_add by (pose proof msPerDay_pos; lia).
  apply Z.mod_small. unfold msPerDay. lia.
Qed.

(** In a zone with a constant offset, when both clock readings of
    [scheduleDailyCheck] fall on one local day: the delay of the daily
    check is at least 0 and less than 24 hours, it ends at 09:00 local
    time (the first 09:00 not before now; the delay is 0 when it is
    09:00 now), and the repeats every 24 hours after it are at 09:00
    local time too. *)
Theorem daily_check_runs_at_next_nine_oclock (offset now created : Z) :
  Day (now + offset) = Day (created + offset) ->
  let delay := Scheduling.timeUntilCheck (fixedZone offset) now created in
  0 <= delay < msPerDay
  /\ (forall k,
        Scheduling.TimeWithinDay (now + delay + k * (24 * 60 * 60 * 1000) + offset)
        = 9 * 3600000)
  /\ (delay = 0 <-> Scheduling.TimeWithinDay (now + offset) = 9 * 3600000).
Proof.
  intros Hday. unfold Scheduling.timeUntilCheck, Scheduling.setHours9,
    Scheduling.setDate_next, UTC, LocalTime, MakeDate, fixedZone.
  rewrite <- Hday. set (D := Day (now + offset)).
  change (24 * 60 * 60 * 1000) with msPerDay.
  assert (D * msPerDay <= now + offset < D * msPerDay + msPerDay) as HD.
  { subst D. unfold Day. pose proof msPerDay_pos.
    pose proof (Z.mul_div_le (now + offset) msPerDay).
    pose proof (Z.mul_succ_div_gt (now + offset) msPerDay). lia. }
  assert (Scheduling.TimeWithinDay (now + offset) = now + offset - D * msPerDay)
    as Htw.
  { unfold Scheduling.TimeWithinDay. symmetry.
    apply (Z.mod_unique_pos _ _ D); lia. }
  assert (9 * 3600000 < msPerDay) as H9 by (unfold msPerDay; lia).
  rewrite Htw.
  replace (D * msPerDay + 9 * 3600000 - offset + offset)
    with (D * msPerDay + 9 * 3600000) by lia.
  assert (Day (D * msPerDay + 9 * 3600000) = D) as ->.
  { unfold Day. pose proof msPerDay_pos.
    rewrite Z.add_comm, Z.div_add by lia. rewrite Z.div_small by lia. lia. }
  pose proof (TimeWithinDay_at_nine D 0) as H0. rewrite Z.add_0_r in H0.
  rewrite H0.
  destruct (Z.gtb_spec now (D * msPerDay + 9 * 3600000 - offset)) as [Hgt | Hle];
    (split; [lia |]); split; try lia; intros k.
  - replace (now + ((D + 1) * msPerDay + 9 * 3600000 - offset - now)
             + k * msPerDay + offset)
      with (D * msPerDay + 9 * 3600000 + (k + 1) * msPerDay) by lia.
    apply TimeWithinDay_at_nine.
  - replace (now + (D * msPerDay + 9 * 3600000 - offset - now)
             + k * msPerDay + offset)
      with (D * msPerDay + 9 * 3600000 + k * msPerDay) by lia.
    apply TimeWithinDay_at_nine.
Qed.

(** Started at 17:30 local time (UTC+5:30): the daily check waits 15 and
    a half hours. *)
Lemma daily_check_runs_at_next_nine_oclock_witness :
  Scheduling.timeUntilCheck (fixedZone 19800000)
    (19813 * msPerDay + 43200000) (19813 * msPerDay + 43200001)
  = 55800000
  /\ 0 <= Scheduling.timeUntilCheck (fixedZone 19800000)
            (19813 * msPerDay + 43200000) (19813 * msPerDay + 43200001)
     < msPerDay.
Proof.
  split; [reflexivity |].
  apply (daily_check_runs_at_next_nine_oclock 19800000
           (19813 * msPerDay + 43200000) (19813 * msPerDay + 43200001)).
  reflexivity.
Defined.

(** Across a forward clock change the 24-hour repeat drifts: started at
    08:00 on the day before the change, the first run is at 09:00 and the
    next one at 10:00 local time. *)
Example daily_check_drifts_across_clock_change :
  let now := 19812 * msPerDay + 7 * 3600000 in
  let delay := Scheduling.timeUntilCheck berlin now now in
  Scheduling.TimeWithinDay (LocalTime berlin (now + delay)) = 9 * 3600000
  /\ Scheduling.TimeWithinDay (LocalTime berlin (now + delay + 24 * 60 * 60 * 1000))
     = 10 * 3600000.
Proof. by split. Qed.

(** ** Permission *)

(** Asking for permission never touches the notifications raised so far.
    It returns [true] only when it leaves the module's permission at
    "granted", and from any other prior value exactly then.  After a call
    that returned [true], [showNotification] constructs the notification;
    after one that returned [false], from a prior value other than
    "granted", it constructs none, and [initNotifications] runs no scan
    and sets no timer. *)
Theorem notifications_follow_the_permission_request
    (b : Scheduling.Browser) (st : Notifier) :
  let r := Scheduling.requestNotificationPermission b st in
  shown (snd r) = shown st
  /\ (fst r = true -> notificationPermission (snd r) = granted)
  /\ (notificationPermission st <> granted ->
      (fst r = true <-> notificationPermission (snd r) = granted))
  /\ (fst r = true ->
      forall t body tg ri,
        shown (showNotification t body tg ri (snd r))
        = shown st ++ [mkNotification t "/icon.png" "/badge.png"
                         [200; 100; 200] body tg ri])
  /\ (fst r = false -> notificationPermission st <> granted ->
      forall t body tg ri, showNotification t body tg ri (snd r) = snd r)
  /\ (fst r = false ->
      forall LocalTZA user res clock now created,
        Scheduling.initNotifications LocalTZA b user res clock now created st
        = (snd r, None)).
Proof.
  unfold Scheduling.initNotifications, Scheduling.requestNotificationPermission,
    showNotification.
  destruct (Scheduling.supported b), (Scheduling.permission b) eqn:Hp,
    (Scheduling.answer b) eqn:Ha; simpl;
    repeat split; try done; try (intros; discriminate);
    intros; destruct (notificationPermission st); done.
Qed.

Lemma notifications_follow_the_permission_request_witness :
  let r := Scheduling.requestNotificationPermission
             (Scheduling.mkBrowser true default denied) (mkNotifier default []) in
  fst r = false
  /\ showNotification "Upcoming Expiry" "Milk expires in 1 week" "expiry-a"
       false (snd r) = snd r.
Proof.
  split; [reflexivity |].
  destruct (notifications_follow_the_permission_request
              (Scheduling.mkBrowser true default denied) (mkNotifier default []))
    as (_ & _ & _ & _ & H & _).
  apply H; [reflexivity | discriminate].
Defined.

(** The module's permission is not taken back: once "granted" it stays
    so when the browser later reports "denied". *)
Example revoked_permission_goes_unnoticed :
  Scheduling.requestNotificationPermission
    (Scheduling.mkBrowser true denied denied) (mkNotifier granted [])
  = (false, mkNotifier granted []).
Proof. reflexivity. Qed.

(** ** Password strength *)

Lemma getPasswordStrength_score (p : list N) :
  Checks.getPasswordStrength p
  = if Checks.score p <=? 2
    then Checks.mkStrength "weak" "Weak" "strength-weak"
    else if Checks.score p <=? 4
         then Checks.mkStrength "medium" "Medium" "strength-medium"
         else Checks.mkStrength "strong" "Strong" "strength-strong".
Proof.
  unfold Checks.getPasswordStrength, Checks.score, Checks.kinds.
  destruct (8 <=? length p)%nat, (12 <=? length p)%nat,
    (existsb Text.isLower p), (existsb Text.isUpper p),
    (existsb Text.isDigit p),
    (existsb (fun c => negb (Text.isLower c || Text.isUpper c || Text.isDigit c)) p);
    reflexivity.
Qed.

Lemma kinds_bounds (p : list N) :
  0 <= Checks.kinds p <= 4 /\ (p <> [] -> 1 <= Checks.kinds p).
Proof.
  unfold Checks.kinds. split.
  - destruct (existsb Text.isLower p), (existsb Text.isUpper p),
      (existsb Text.isDigit p), (existsb _ p); simpl; lia.
  - destruct p as [| c p]; [done |]. intros _. cbn [existsb].
    destruct (Text.isLower c), (Text.isUpper c), (Text.isDigit c);
      cbn [orb negb];
      repeat (match goal with
              | |- context [Z.b2z (existsb ?f p)] => destruct (existsb f p)
              end);
      cbn [Z.b2z]; lia.
Qed.

(** A password rated "strong" has at least 8 characters and characters of
    at least three of the four kinds (lower case, upper case, digit,
    other); a password of 12 or more characters is never rated "weak";
    the empty password is "weak". *)
Theorem strong_passwords_are_long_and_varied (p : list N) :
  (Checks.level (Checks.getPasswordStrength p) = "strong" ->
   (8 <= length p)%nat /\ 3 <= Checks.kinds p)
  /\ ((12 <= length p)%nat ->
      Checks.level (Checks.getPasswordStrength p) <> "weak")
  /\ Checks.level (Checks.getPasswordStrength []) = "weak".
Proof.
  rewrite getPasswordStrength_score. unfold Checks.score.
  destruct (kinds_bounds p) as [Hk Hne].
  split; [| split; [| reflexivity]].
  - destruct (Nat.leb_spec 8 (length p)), (Nat.leb_spec 12 (length p));
      simpl Z.b2z;
      destruct (Z.leb_spec (0 + 0 + Checks.kinds p) 2),
               (Z.leb_spec (0 + 0 + Checks.kinds p) 4),
               (Z.leb_spec (1 + 0 + Checks.kinds p) 2),
               (Z.leb_spec (1 + 0 + Checks.kinds p) 4),
               (Z.leb_spec (1 + 1 + Checks.kinds p) 2),
               (Z.leb_spec (1 + 1 + Checks.kinds p) 4),
               (Z.leb_spec (0 + 1 + Checks.kinds p) 2),
               (Z.leb_spec (0 + 1 + Checks.kinds p) 4);
      simpl; try discriminate; try lia; intros _; lia.
  - intros H12. assert (p <> []) as Hp by (intros ->; simpl in H12; lia).
    specialize (Hne Hp).
    destruct (Nat.leb_spec 8 (length p)); [| lia].
    destruct (Nat.leb_spec 12 (length p)); [| lia]. simpl Z.b2z.
    destruct (Z.leb_spec (1 + 1 + Checks.kinds p) 2); [lia |].
    by destruct (Z.leb_spec (1 + 1 + Checks.kinds p) 4).
Qed.

Lemma strong_passwords_are_long_and_varied_witness :
  Checks.level (Checks.getPasswordStrength (Text.units "correcthorsebattery"))
  <> "weak".
Proof.
  apply (strong_passwords_are_long_and_varied (Text.units "correcthorsebattery")).
  vm_compute. lia.
Defined.

Lemma existsb_app_l {A} (f : A -> bool) (p q : list A) :
  Z.b2z (existsb f p) <= Z.b2z (existsb f (p ++ q)).
Proof.
  rewrite existsb_app. destruct (existsb f p), (existsb f q); simpl; lia.
Qed.

Lemma score_app (p q : list N) : Checks.score p <= Checks.score (p ++ q).
Proof.
  unfold Checks.score, Checks.kinds. rewrite length_app.
  pose proof (existsb_app_l Text.isLower p q).
  pose proof (existsb_app_l Text.isUpper p q).
  pose proof (existsb_app_l Text.isDigit p q).
  pose proof (existsb_app_l
                (fun c => negb (Text.isLower c || Text.isUpper c || Text.isDigit c))
                p q).
  assert (Z.b2z (8 <=? length p)%nat <= Z.b2z (8 <=? length p + length q)%nat).
  { destruct (Nat.leb_spec 8 (length p)),
      (Nat.leb_spec 8 (length p + length q)); simpl; lia. }
  assert (Z.b2z (12 <=? length p)%nat <= Z.b2z (12 <=? length p + length q)%nat).
  { destruct (Nat.leb_spec 12 (length p)),
      (Nat.leb_spec 12 (length p + length q)); simpl; lia. }
  lia.
Qed.

(** Typing further characters never lowers the rating: what is "strong"
    stays "strong", and what is "weak" after more characters was "weak"
    before them. *)
Theorem rating_never_drops_while_typing (p q : list N) :
  (Checks.level (Checks.getPasswordStrength p) = "strong" ->
   Checks.level (Checks.getPasswordStrength (p ++ q)) = "strong")
  /\ (Checks.level (Checks.getPasswordStrength (p ++ q)) = "weak" ->
      Checks.level (Checks.getPasswordStrength p) = "weak").
Proof.
  rewrite !getPasswordStrength_score. pose proof (score_app p q) as Hm.
  destruct (Z.leb_spec (Checks.score p) 2), (Z.leb_spec (Checks.score p) 4),
    (Z.leb_spec (Checks.score (p ++ q)) 2),
    (Z.leb_spec (Checks.score (p ++ q)) 4);
    simpl; split; intros; (reflexivity || discriminate || lia).
Qed.

Lemma rating_never_drops_while_typing_witness :
  Checks.level (Checks.getPasswordStrength (Text.units "Abcdef12!" ++ Text.units "xyz"))
  = "strong".
Proof.
  apply (rating_never_drops_while_typing (Text.units "Abcdef12!")
           (Text.units "xyz")).
  reflexivity.
Defined.

(** ** Regular expressions: [test] decides the language *)

Lemma nullable_lang (r : Regex.Regex) :
  Regex.nullable r = true <-> Regex.lang r [].
Proof.
  split.
  - induction r; simpl; intros H; try discriminate.
    + constructor.
    + apply andb_true_iff in H as [H1 H2].
      apply (Regex.lang_cat _ _ [] []); auto.
    + apply orb_true_iff in H as [H | H];
        [apply Regex.lang_alt_l | apply Regex.lang_alt_r]; auto.
    + constructor.
  - intros H. remember [] as w eqn:Hw.
    induction H; simpl; try reflexivity; try discriminate.
    + apply app_eq_nil in Hw as [-> ->]. by rewrite IHlang1, IHlang2.
    + by rewrite IHlang.
    + rewrite IHlang by assumption. apply orb_true_r.
Qed.

Lemma lang_star_cons (r : Regex.Regex) (c : N) (s : list N) :
  Regex.lang (Regex.Star r) (c :: s) ->
  exists u v, s = u ++ v /\ Regex.lang r (c :: u) /\ Regex.lang (Regex.Star r) v.
Proof.
  intros H. remember (Regex.Star r) as R eqn:HR. remember (c :: s) as w eqn:Hw.
  induction H; try discriminate.
  injection HR as ->. destruct u as [| c' u].
  - simpl in Hw. by apply IHlang2.
  - injection Hw as -> <-. by exists u, v.
Qed.

Lemma lang_cat_iff (r s : Regex.Regex) (w : list N) :
  Regex.lang (Regex.Cat r s) w
  <-> exists u v, w = u ++ v /\ Regex.lang r u /\ Regex.lang s v.
Proof.
  split.
  - intros H. inversion H; subst. eauto.
  - intros (u & v & -> & Hu & Hv). by constructor.
Qed.

Lemma lang_cls_iff (p : N -> bool) (w : list N) :
  Regex.lang (Regex.Cls p) w <-> exists c, w = [c] /\ p c = true.
Proof.
  split.
  - intros H. inversion H; subst. eauto.
  - intros (c & -> & Hc). by constructor.
Qed.

Lemma lang_alt_iff (r s : Regex.Regex) (w : list N) :
  Regex.lang (Regex.Alt r s) w <-> Regex.lang r w \/ Regex.lang s w.
Proof.
  split.
  - intros H. inversion H; subst; auto.
  - intros [H | H]; [by apply Regex.lang_alt_l | by apply Regex.lang_alt_r].
Qed.

Lemma lang_void (w : list N) : ~ Regex.lang Regex.Void w.
Proof. intros H. inversion H. Qed.

Lemma lang_eps_iff (w : list N) : Regex.lang Regex.Eps w <-> w = [].
Proof.
  split; [intros H; by inversion H | intros ->; constructor].
Qed.

Lemma deriv_lang (c : N) (r : Regex.Regex) (s : list N) :
  Regex.lang (Regex.deriv c r) s <-> Regex.lang r (c :: s).
Proof.
  split.
  - revert s. induction r as [| | p | r1 IH1 r2 IH2 | r1 IH1 r2 IH2 | r IH];
      intros s H; simpl in H.
    + by apply lang_void in H.
    + by apply lang_void in H.
    + destruct (p c) eqn:Hp; [| by apply lang_void in H].
      apply lang_eps_iff in H as ->. by constructor.
    + assert (Regex.lang (Regex.Cat (Regex.deriv c r1) r2) s
              -> Regex.lang (Regex.Cat r1 r2) (c :: s)) as Hcat.
      { intros Hc. apply lang_cat_iff in Hc as (u & v & -> & Hu & Hv).
        apply (Regex.lang_cat _ _ (c :: u) v); auto. }
      destruct (Regex.nullable r1) eqn:Hn; [| by apply Hcat].
      apply lang_alt_iff in H as [H | H]; [by apply Hcat |].
      apply (Regex.lang_cat _ _ [] (c :: s)); [| auto].
      by apply nullable_lang.
    + apply lang_alt_iff in H as [H | H];
        [apply Regex.lang_alt_l | apply Regex.lang_alt_r]; auto.
    + apply lang_cat_iff in H as (u & v & -> & Hu & Hv).
      apply (Regex.lang_star_app _ (c :: u) v); auto.
  - revert s. induction r as [| | p | r1 IH1 r2 IH2 | r1 IH1 r2 IH2 | r IH];
      intros s H; simpl.
    + by apply lang_void in H.
    + apply lang_eps_iff in H. discriminate.
    + apply lang_cls_iff in H as (x & [= -> ->] & Hx). rewrite Hx. constructor.
    + apply lang_cat_iff in H as (u & v & Huv & Hu & Hv).
      destruct u as [| c' u].
      * simpl in Huv. subst v. apply nullable_lang in Hu. rewrite Hu.
        apply Regex.lang_alt_r. auto.
      * injection Huv as <- ->.
        destruct (Regex.nullable r1);
          [apply Regex.lang_alt_l |]; apply Regex.lang_cat; auto.
    + apply lang_alt_iff in H as [H | H];
        [apply Regex.lang_alt_l | apply Regex.lang_alt_r]; auto.
    + apply lang_star_cons in H as (u & v & -> & Hu & Hv).
      apply Regex.lang_cat; auto.
Qed.

Lemma test_lang (r : Regex.Regex) (s : list N) :
  Regex.test r s = true <-> Regex.lang r s.
Proof.
  revert r. induction s as [| c s IH]; intros r; simpl.
  - apply nullable_lang.
  - rewrite IH. apply deriv_lang.
Qed.

Lemma lang_star_cls (p : N -> bool) (w : list N) :
  Regex.lang (Regex.Star (Regex.Cls p)) w <-> Forall (fun c => p c = true) w.
Proof.
  split.
  - intros H. remember (Regex.Star (Regex.Cls p)) as R eqn:HR.
    induction H; try discriminate; [constructor |].
    injection HR as ->. apply Forall_app. split; [| auto].
    inversion H; subst. by repeat constructor.
  - induction 1 as [| c w Hc _ IH]; [constructor |].
    apply (Regex.lang_star_app _ [c] w); [by constructor | exact IH].
Qed.

Lemma lang_plus_cls (p : N -> bool) (w : list N) :
  Regex.lang (Regex.Plus (Regex.Cls p)) w
  <-> w <> [] /\ Forall (fun c => p c = true) w.
Proof.
  unfold Regex.Plus. rewrite lang_cat_iff. split.
  - intros (u & v & -> & Hu & Hv).
    apply lang_cls_iff in Hu as (c & -> & Hc). apply lang_star_cls in Hv.
    split; [discriminate | by constructor].
  - intros [Hne Hall]. destruct Hall as [| c w Hc Hall]; [done |].
    exists [c], w. repeat split; [by constructor | by apply lang_star_cls].
Qed.

Lemma emailRegex_lang (s : list N) :
  Regex.lang Checks.emailRegex s
  <-> exists a b c,
        s = a ++ [64%N] ++ b ++ [46%N] ++ c
        /\ a <> [] /\ b <> [] /\ c <> []
        /\ Forall (fun x => Checks.notSpaceAt x = true) (a ++ b ++ c).
Proof.
  unfold Checks.emailRegex. split.
  - intros H.
    apply lang_cat_iff in H as (a & w1 & -> & Ha & H).
    apply lang_cat_iff in H as (at1 & w2 & -> & Hat & H).
    apply lang_cat_iff in H as (b & w3 & -> & Hb & H).
    apply lang_cat_iff in H as (dot & c & -> & Hdot & Hc).
    apply lang_cls_iff in Hat as (x & -> & Hx). apply N.eqb_eq in Hx as ->.
    apply lang_cls_iff in Hdot as (y & -> & Hy). apply N.eqb_eq in Hy as ->.
    apply lang_plus_cls in Ha as [Ha1 Ha2], Hb as [Hb1 Hb2], Hc as [Hc1 Hc2].
    exists a, b, c. repeat split; try assumption.
    rewrite !Forall_app. by repeat split.
  - intros (a & b & c & -> & Ha & Hb & Hc & Hall).
    rewrite !Forall_app in Hall. destruct Hall as (Ha' & Hb' & Hc').
    apply Regex.lang_cat; [by apply lang_plus_cls |].
    apply Regex.lang_cat; [by constructor |].
    apply Regex.lang_cat; [by apply lang_plus_cls |].
    apply Regex.lang_cat; [by constructor | by apply lang_plus_cls].
Qed.

(** ** E-mail addresses *)

(** [isValidEmail] accepts exactly the texts of the form
    local [@] domain [.] rest in which the three parts are not empty and
    hold neither white space nor [@]. *)
Theorem valid_email_shape (email : list N) :
  Checks.isValidEmail email = true
  <-> exists a b c,
        email = a ++ [64%N] ++ b ++ [46%N] ++ c
        /\ a <> [] /\ b <> [] /\ c <> []
        /\ Forall (fun x => Checks.notSpaceAt x = true) (a ++ b ++ c).
Proof.
  unfold Checks.isValidEmail. rewrite test_lang. apply emailRegex_lang.
Qed.

Lemma valid_email_shape_witness :
  Checks.isValidEmail (Text.units "alice@example.org") = true.
Proof.
  apply (valid_email_shape (Text.units "alice@example.org")).
  exists (Text.units "alice"), (Text.units "example"), (Text.units "org").
  repeat split; try discriminate.
  apply Forall_forall. intros x Hx. apply list_elem_of_In in Hx.
  vm_compute in Hx. intuition (subst; reflexivity).
Defined.

Lemma notSpaceAt_filter_at (w : list N) :
  Forall (fun x => Checks.notSpaceAt x = true) w ->
  List.filter (fun c => (c =? 64)%N) w = []
  /\ Forall (fun x => Text.isSpace x = false) w.
Proof.
  induction 1 as [| x w Hx _ [IH1 IH2]]; [by split |].
  unfold Checks.notSpaceAt in Hx. apply negb_true_iff, orb_false_iff in Hx.
  destruct Hx as [Hs Hat]. simpl. rewrite Hat. split; [exact IH1 | by constructor].
Qed.

(** An address [isValidEmail] accepts holds exactly one [@] and no white
    space, and is at least five characters long; the texts without [@],
    and the empty text, are refused. *)
Theorem valid_email_has_one_at_and_no_space (email : list N) :
  Checks.isValidEmail email = true ->
  length (List.filter (fun c => (c =? 64)%N) email) = 1%nat
  /\ Forall (fun x => Text.isSpace x = false) email
  /\ (5 <= length email)%nat.
Proof.
  unfold Checks.isValidEmail. rewrite test_lang, emailRegex_lang.
  intros (a & b & c & -> & Ha & Hb & Hc & Hall).
  rewrite !Forall_app in Hall. destruct Hall as (Ha' & Hb' & Hc').
  apply notSpaceAt_filter_at in Ha' as [Fa Sa], Hb' as [Fb Sb], Hc' as [Fc Sc].
  split; [| split].
  - rewrite !List.filter_app, Fa, Fb, Fc. reflexivity.
  - rewrite !Forall_app. repeat split; try assumption; by repeat constructor.
  - rewrite !length_app. destruct a, b, c; simpl; try done; lia.
Qed.

Lemma valid_email_has_one_at_and_no_space_witness :
  (5 <= length (Text.units "bob@mail.example"))%nat.
Proof.
  apply (valid_email_has_one_at_and_no_space (Text.units "bob@mail.example")).
  reflexivity.
Defined.

Example emails_refused_and_accepted :
  Checks.isValidEmail (Text.units "") = false
  /\ Checks.isValidEmail (Text.units "alice.example.org") = false
  /\ Checks.isValidEmail (Text.units "alice@example") = false
  /\ Checks.isValidEmail (Text.units "a lice@example.org") = false
  /\ Checks.isValidEmail (Text.units "alice@@example.org") = false
  /\ Checks.isValidEmail (Text.units "alice@example.") = false
  /\ Checks.isValidEmail (Text.units "a@b..") = true
  /\ Checks.isValidEmail (Text.units "a@b.c") = true.
Proof. vm_compute. by repeat split. Qed.

(** ** Login and signup *)

(** The login handler asks the service only for a well-formed address,
    with the address trimmed and the password as typed.  It redirects to
    the dashboard only when the service accepted the credentials and the
    address is confirmed; in every other case no redirect is set, the
    error line is shown and no success toast appears. *)
Theorem login_redirects_only_confirmed_users
    (email_value password_value : list N) (res : Auth.SignInResult)
    (pg : Auth.AuthPage) :
  let pg' := Auth.loginSubmit email_value password_value res pg in
  let valid := Checks.isValidEmail (Text.trim email_value) in
  let accepted :=
    valid && match res with
             | Auth.SignInOk c => Auth.confirmed c
             | Auth.SignInError _ => false
             end in
  Auth.auth_calls pg'
  = Auth.auth_calls pg
    ++ (if valid
        then [Auth.SignInWithPassword (Text.trim email_value) password_value]
        else [])
  /\ (accepted = true ->
      Auth.redirect pg' = Some ("dashboard.html", 500)
      /\ Auth.auth_toasts pg'
         = Auth.auth_toasts pg ++ [("Login successful!", "success")]
      /\ Auth.errorShown pg' = false)
  /\ (accepted = false ->
      Auth.redirect pg' = Auth.redirect pg
      /\ Auth.auth_toasts pg' = Auth.auth_toasts pg
      /\ Auth.errorShown pg' = true)
  /\ (valid = true -> accepted = false ->
      Auth.loading pg' = false /\ Auth.disabled pg' = false).
Proof.
  unfold Auth.loginSubmit. cbn zeta.
  destruct (Checks.isValidEmail (Text.trim email_value)); simpl.
  - destruct res as [m | c]; simpl.
    + rewrite app_nil_r || idtac. repeat split; done.
    + destruct (Auth.confirmed c); simpl; repeat split; done.
  - rewrite app_nil_r. repeat split; done.
Qed.

Lemma login_redirects_only_confirmed_users_witness :
  let pg := Auth.mkAuthPage "" false "" false false false false false [] [] None in
  Auth.redirect
    (Auth.loginSubmit (Text.units " alice@example.org ") (Text.units "secret")
       (Auth.SignInOk None) pg)
  = None.
Proof.
  intros pg.
  destruct (login_redirects_only_confirmed_users
              (Text.units " alice@example.org ") (Text.units "secret")
              (Auth.SignInOk None) pg) as (_ & _ & H & _).
  apply H. reflexivity.
Defined.

(** The signup handler asks the service exactly when the trimmed name is
    not empty, the trimmed address is well formed, the password has at
    least 8 characters and equals its confirmation; the request carries
    the trimmed name and address and the password as typed.  When a check
    fails, the error line is shown and nothing else changes: no request,
    no success line, no redirect.  After a request the button is released;
    the success line and the redirect to the login page appear only when
    the service reported no error. *)
Theorem signup_asks_only_with_checked_input
    (name_value email_value password_value confirm_value : list N)
    (res : Auth.SignUpResult) (pg : Auth.AuthPage) :
  let pg' := Auth.signupSubmit name_value email_value password_value
               confirm_value res pg in
  let checked :=
    negb (length (Text.trim name_value) =? 0)%nat
    && Checks.isValidEmail (Text.trim email_value)
    && (8 <=? length password_value)%nat
    && bool_decide (password_value = confirm_value) in
  Auth.auth_calls pg'
  = Auth.auth_calls pg
    ++ (if checked
        then [Auth.SignUp (Text.trim email_value) password_value
                (Text.trim name_value)]
        else [])
  /\ (checked = false ->
      exists text, pg' = Auth.show_error text pg)
  /\ (checked = true ->
      Auth.loading pg' = false /\ Auth.disabled pg' = false
      /\ (res = Auth.SignUpOk ->
          Auth.successShown pg' = true /\ Auth.errorShown pg' = false
          /\ Auth.redirect pg' = Some ("login.html", 3000))
      /\ (res <> Auth.SignUpOk ->
          Auth.successShown pg' = false /\ Auth.errorShown pg' = true
          /\ Auth.redirect pg' = Auth.redirect pg
          /\ Auth.auth_toasts pg' = Auth.auth_toasts pg)).
Proof.
  unfold Auth.signupSubmit. cbn zeta. rewrite Nat.ltb_antisym.
  destruct (length (Text.trim name_value) =? 0)%nat,
    (Checks.isValidEmail (Text.trim email_value)),
    (8 <=? length password_value)%nat,
    (bool_decide (password_value = confirm_value));
    cbn [negb andb];
    try (rewrite app_nil_r; split; [done |]; split; [eauto | done]).
  destruct res as [m |]; simpl; repeat split; done.
Qed.

Lemma signup_asks_only_with_checked_input_witness :
  let pg := Auth.mkAuthPage "" false "" false false false false false [] [] None in
  exists text,
    Auth.signupSubmit (Text.units "Alice") (Text.units "alice@example.org")
      (Text.units "short") (Text.units "short") Auth.SignUpOk pg
    = Auth.show_error text pg.
Proof.
  intros pg.
  destruct (signup_asks_only_with_checked_input (Text.units "Alice")
              (Text.units "alice@example.org") (Text.units "short")
              (Text.units "short") Auth.SignUpOk pg) as (_ & H & _).
  apply H. reflexivity.
Defined.

(** A name of blanks only is refused, and a password of eight equal
    letters, rated "weak", is sent. *)
Example signup_edge_inputs :
  let pg := Auth.mkAuthPage "" false "" false false false false false [] [] None in
  Auth.errorText
    (Auth.signupSubmit (Text.units "   ") (Text.units "alice@example.org")
       (Text.units "aaaaaaaa") (Text.units "aaaaaaaa") Auth.SignUpOk pg)
  = "Please enter your name"
  /\ Auth.auth_calls
       (Auth.signupSubmit (Text.units "Al") (Text.units "alice@example.org")
          (Text.units "aaaaaaaa") (Text.units "aaaaaaaa") Auth.SignUpOk pg)
     = [Auth.SignUp (Text.units "alice@example.org") (Text.units "aaaaaaaa")
          (Text.units "Al")]
  /\ Checks.level (Checks.getPasswordStrength (Text.units "aaaaaaaa")) = "weak".
Proof. vm_compute. by repeat split. Qed.

(** ** What an import does besides sending rows *)

Lemma toInsert_cases (u : User) (item : Js.Value) :
  (toInsert u item = None /\ (item = Js.JNull \/ item = Js.JUndefined))
  \/ (exists row,
        toInsert u item = Some row
        /\ item <> Js.JNull /\ item <> Js.JUndefined
        /\ row_user_id row = uid u
        /\ Js.truthy (row_quantity row) = true).
Proof.
  assert (forall q, Js.truthy (Js.or q (Js.JNum 1)) = true) as Hq.
  { intros q. unfold Js.or. by destruct (Js.truthy q) eqn:E. }
  destruct item; try (left; split; [reflexivity | auto]; fail);
    right; eexists; (split; [reflexivity |]); repeat split; try discriminate;
    apply Hq.
Qed.

Lemma mapM_toInsert_cases (u : User) (elems : list Js.Value) :
  (mapM (toInsert u) elems = None
   /\ Exists (fun item => item = Js.JNull \/ item = Js.JUndefined) elems)
  \/ (exists rows,
        mapM (toInsert u) elems = Some rows
        /\ length rows = length elems
        /\ Forall (fun item => item <> Js.JNull /\ item <> Js.JUndefined) elems
        /\ Forall (fun row => row_user_id row = uid u
                              /\ Js.truthy (row_quantity row) = true) rows).
Proof.
  induction elems as [| item elems IH].
  - right. exists []. by repeat split.
  - destruct (toInsert_cases u item)
      as [[Hn Hnull] | (row & Hrow & Hn1 & Hn2 & Hu & Hq)].
    + left. split; [| by left]. simpl. by rewrite Hn.
    + destruct IH as [[Hnone Hex] | (rows & Hrows & Hlen & Hall & Hgood)].
      * left. split; [| by right]. simpl. by rewrite Hrow, Hnone.
      * right. exists (row :: rows). simpl. rewrite Hrow, Hrows.
        repeat split; try (by constructor). simpl. by rewrite Hlen.
Qed.

(** C9 (as amended).  An import is rejected before anything is sent (no
    request to the remote store, [items] as it was, the error toast
    shown) when the document does not parse, when it parses to a value
    that is not an array, and when it is an array with a [null] element.
    An array is not checked further: every other array is sent as one
    insert with a row per element, also when its elements are not
    records. *)
Theorem import_rejects_non_arrays_and_null_elements
    (parsed : option Js.Value) (insert_error : option string) (st : Page) :
  let st' := handleImport (Some parsed) insert_error st in
  items st' = items st
  /\ ((forall elems,
         parsed = Some (Js.JArr elems) ->
         Exists (fun item => item = Js.JNull \/ item = Js.JUndefined) elems) ->
      remote_calls st' = remote_calls st
      /\ toasts st' = toasts st ++ [("Failed to import data", "error")])
  /\ (forall elems,
        parsed = Some (Js.JArr elems) ->
        Forall (fun item => item <> Js.JNull /\ item <> Js.JUndefined) elems ->
        exists rows,
          remote_calls st'
          = remote_calls st ++ [RemoteInsert "expiry_items" rows]
          /\ length rows = length elems).
Proof.
  destruct parsed as [[| | b | n | s | elems | props] |];
    try (repeat split; (reflexivity || discriminate)).
  cbn zeta. rewrite handleImport_array.
  destruct (mapM_toInsert_cases (currentUser st) elems)
    as [[-> Hex] | (rows & -> & Hlen & Hall & _)].
  - repeat split.
    intros elems' [= <-] Hgood.
    apply Exists_exists in Hex as (item & Hin & Hnull).
    rewrite Forall_forall in Hgood. destruct (Hgood item Hin). by destruct Hnull.
  - assert (~ Exists (fun item => item = Js.JNull \/ item = Js.JUndefined) elems)
      as Hnone.
    { intros Hex. apply Exists_exists in Hex as (item & Hin & Hnull).
      rewrite Forall_forall in Hall. destruct (Hall item Hin). by destruct Hnull. }
    split; [by destruct insert_error |]. split.
    + intros Hex. by destruct (Hnone (Hex elems eq_refl)).
    + intros elems' [= <-] _. exists rows. split; [by destruct insert_error | exact Hlen].
Qed.

(** An object and an array with a [null] element are rejected; an array
    of one record is sent. *)
Lemma import_rejects_non_arrays_and_null_elements_witness :
  let st := set_items [milk 5] (init alice) in
  (remote_calls
     (handleImport (Some (Some (Js.JObj [("name", Js.JStr "Milk")]))) None st)
   = []
   /\ toasts
        (handleImport (Some (Some (Js.JObj [("name", Js.JStr "Milk")]))) None st)
      = [("Failed to import data", "error")])
  /\ (remote_calls
        (handleImport
           (Some (Some (Js.JArr [Js.JObj [("name", Js.JStr "Milk")]; Js.JNull])))
           None st)
      = [])
  /\ exists rows,
       remote_calls
         (handleImport (Some (Some (Js.JArr [Js.JObj [("name", Js.JStr "Milk")]])))
            None st)
       = [RemoteInsert "expiry_items" rows]
       /\ length rows = 1%nat.
Proof.
  intros st. split; [| split].
  - destruct (import_rejects_non_arrays_and_null_elements
                (Some (Js.JObj [("name", Js.JStr "Milk")])) None st)
      as (_ & Hrej & _).
    apply Hrej. intros elems. discriminate.
  - destruct (import_rejects_non_arrays_and_null_elements
                (Some (Js.JArr [Js.JObj [("name", Js.JStr "Milk")]; Js.JNull]))
                None st) as (_ & Hrej & _).
    apply Hrej. intros elems [= <-].
    apply Exists_cons_tl, Exists_cons_hd. by left.
  - destruct (import_rejects_non_arrays_and_null_elements
                (Some (Js.JArr [Js.JObj [("name", Js.JStr "Milk")]])) None st)
      as (_ & _ & Hsent).
    apply (Hsent [Js.JObj [("name", Js.JStr "Milk")]]); [reflexivity |].
    repeat constructor; discriminate.
Defined.

(** C9, counterexample.  The document [[7]] is an array, but not an array
    of records.  It is not rejected: the insert is sent, with one row of
    [undefined] fields, and the success toast is shown. *)
Lemma import_of_array_of_numbers_is_sent :
  let st' := handleImport (Some (Some (Js.JArr [Js.JNum 7]))) None (init alice) in
  ~ Forall is_record [Js.JNum 7]
  /\ remote_calls st'
     = [RemoteInsert "expiry_items"
          [mkImportRow Js.JUndefined Js.JUndefined (Js.JNum 1)
             Js.JUndefined Js.JUndefined "u1"]]
  /\ remote_calls st' <> remote_calls (init alice)
  /\ toasts st' = [("Imported 1 items successfully", "success")].
Proof.
  split; [| by repeat split].
  intros H. apply Forall_cons in H as [[props Hrec] _]. discriminate.
Qed.

(** An import never writes the local collection, whatever the file holds
    and whatever the remote store answers: imported items reach the page
    only through the change feed.  With a file chosen it shows exactly one
    toast: the success toast, which counts the elements, when the document
    is an array with no [null] element and the insert is answered without
    error; the failure toast in every other case (the insert answered
    with an error, an array with a [null] element, a document that is not
    an array or does not parse). *)
Theorem import_leaves_items_and_reports_the_outcome
    (file : option (option Js.Value)) (insert_error : option string)
    (st : Page) :
  let st' := handleImport file insert_error st in
  items st' = items st
  /\ currentUser st' = currentUser st
  /\ (file = None -> st' = st)
  /\ forall parsed, file = Some parsed ->
       (forall elems,
          parsed = Some (Js.JArr elems) ->
          Forall (fun item => item <> Js.JNull /\ item <> Js.JUndefined) elems ->
          insert_error = None ->
          toasts st'
          = toasts st
            ++ [("Imported " +:+ pretty (Z.of_nat (length elems))
                   +:+ " items successfully", "success")])
       /\ ((insert_error <> None
            \/ forall elems,
                 parsed = Some (Js.JArr elems) ->
                 Exists (fun item => item = Js.JNull \/ item = Js.JUndefined)
                        elems) ->
           toasts st' = toasts st ++ [("Failed to import data", "error")]).
Proof.
  destruct file as [parsed |]; [| by repeat split].
  assert (forall v : option Js.Value,
            (forall elems, v <> Some (Js.JArr elems)) ->
            handleImport (Some v) insert_error st
            = showToast "Failed to import data" "error" st) as Hrej.
  { intros [[| | b | n | s | elems | props] |] Hv; try reflexivity.
    by destruct (Hv elems). }
  destruct parsed as [[| | b | n | s | elems | props] |];
    try (cbn zeta; rewrite Hrej by discriminate;
         split; [reflexivity |]; split; [reflexivity |]; split; [discriminate |];
         intros parsed [= <-]; split; [discriminate | reflexivity]).
  cbn zeta. rewrite handleImport_array.
  destruct (mapM_toInsert_cases (currentUser st) elems)
    as [[-> Hex] | (rows & -> & Hlen & Hall & _)].
  - split; [reflexivity |]. split; [reflexivity |]. split; [discriminate |].
    intros parsed [= <-]. split; [| reflexivity].
    intros elems' [= <-] Hgood _.
    apply Exists_exists in Hex as (item & Hin & Hnull).
    rewrite Forall_forall in Hgood. destruct (Hgood item Hin). by destruct Hnull.
  - split; [by destruct insert_error |]. split; [by destruct insert_error |].
    split; [discriminate |].
    intros parsed [= <-]. split.
    + intros elems' [= <-] _ ->. simpl. by rewrite Hlen.
    + intros [Herr | Hex].
      * by destruct insert_error.
      * specialize (Hex elems eq_refl).
        apply Exists_exists in Hex as (item & Hin & Hnull).
        rewrite Forall_forall in Hall. destruct (Hall item Hin). by destruct Hnull.
Qed.

(** Two records imported without error: the success toast counts two. *)
Lemma import_leaves_items_and_reports_the_outcome_witness :
  toasts
    (handleImport
       (Some (Some (Js.JArr [Js.JObj [("name", Js.JStr "Milk")];
                             Js.JObj [("name", Js.JStr "Eggs")]])))
       None (set_items [milk 5] (init alice)))
  = [("Imported 2 items successfully", "success")].
Proof.
  destruct (import_leaves_items_and_reports_the_outcome
              (Some (Some (Js.JArr [Js.JObj [("name", Js.JStr "Milk")];
                                    Js.JObj [("name", Js.JStr "Eggs")]])))
              None (set_items [milk 5] (init alice))) as (_ & _ & _ & H).
  destruct (H _ eq_refl) as [Hok _].
  apply (Hok [Js.JObj [("name", Js.JStr "Milk")];
              Js.JObj [("name", Js.JStr "Eggs")]]); [reflexivity | | reflexivity].
  repeat constructor; discriminate.
Defined.

(** Whatever array is imported, records or not, every row the import
    sends carries the id of the current user and a quantity that is
    neither missing, [null], [0] nor empty; there is one row per element
    and at most one request. *)
Theorem imported_rows_always_have_owner_and_quantity
    (file : option (option Js.Value)) (insert_error : option string)
    (st : Page) :
  exists new,
    remote_calls (handleImport file insert_error st) = remote_calls st ++ new
    /\ (length new <= 1)%nat
    /\ forall table rows, RemoteInsert table rows ∈ new ->
         table = "expiry_items"
         /\ (exists elems, file = Some (Some (Js.JArr elems))
                           /\ length rows = length elems)
         /\ Forall (fun row =>
                      row_user_id row = uid (currentUser st)
                      /\ Js.truthy (row_quantity row) = true) rows.
Proof.
  assert (exists new : list RemoteCall,
             remote_calls st = remote_calls st ++ new /\ (length new <= 1)%nat
             /\ forall table rows, RemoteInsert table rows ∈ new ->
                  table = "expiry_items"
                  /\ (exists elems, file = Some (Some (Js.JArr elems))
                                    /\ length rows = length elems)
                  /\ Forall (fun row =>
                               row_user_id row = uid (currentUser st)
                               /\ Js.truthy (row_quantity row) = true) rows)
    as Hnone.
  { exists []. rewrite app_nil_r. split; [reflexivity |].
    split; [simpl; lia |]. intros table rows Hin. by apply elem_of_nil in Hin. }
  destruct file as [[[| | b | n | s | elems | props] |] |]; try exact Hnone.
  rewrite handleImport_array.
  destruct (mapM_toInsert_cases (currentUser st) elems)
    as [[-> _] | (rows & -> & Hlen & _ & Hgood)]; [exact Hnone |].
  exists [RemoteInsert "expiry_items" rows].
  split; [by destruct insert_error |]. split; [simpl; lia |].
  intros table rows' Hin. apply list_elem_of_singleton in Hin.
  injection Hin as -> ->. repeat split; eauto.
Qed.

Lemma imported_rows_always_have_owner_and_quantity_witness :
  exists rows,
    remote_calls
      (handleImport
         (Some (Some (Js.JArr [Js.JObj [("name", Js.JStr "Milk");
                                       ("quantity", Js.JNum 0)];
                               Js.JNum 7])))
         None (init alice))
    = [RemoteInsert "expiry_items" rows]
    /\ Forall (fun row => row_user_id row = "u1"
                          /\ Js.truthy (row_quantity row) = true) rows.
Proof.
  eexists. split; [reflexivity |].
  destruct (imported_rows_always_have_owner_and_quantity
              (Some (Some (Js.JArr [Js.JObj [("name", Js.JStr "Milk");
                                            ("quantity", Js.JNum 0)];
                                    Js.JNum 7])))
              None (init alice)) as (new & Hnew & _ & Hrows).
  vm_compute in Hnew. subst new.
  apply (Hrows "expiry_items"). apply list_elem_of_singleton. reflexivity.
Defined.

(** ** File names and storage paths *)

Lemma append_assoc (a b c : string) : (a +:+ b) +:+ c = a +:+ b +:+ c.
Proof.
  induction a as [| x a IH]; [reflexivity |].
  change (String x ((a +:+ b) +:+ c) = String x (a +:+ b +:+ c)).
  by rewrite IH.
Qed.

Lemma split_not_nil (sep : ascii) (s : string) : Paths.split sep s <> [].
Proof.
  induction s as [| c s IH]; simpl; [discriminate |].
  destruct (Ascii.eqb c sep); [discriminate |].
  by destruct (Paths.split sep s).
Qed.

Lemma split_free (sep : ascii) (s : string) :
  Paths.occurs sep s = false -> Paths.split sep s = [s].
Proof.
  induction s as [| c s IH]; simpl; [reflexivity |].
  destruct (Ascii.eqb c sep); simpl; [discriminate |].
  intros H. by rewrite IH.
Qed.

Lemma split_app_sep (sep : ascii) (s t : string) :
  Paths.split sep (s +:+ String sep t) = Paths.split sep s ++ Paths.split sep t.
Proof.
  induction s as [| c s IH]; simpl.
  - by rewrite Ascii.eqb_refl.
  - destruct (Ascii.eqb c sep); [by rewrite IH |].
    rewrite IH. pose proof (split_not_nil sep s).
    by destruct (Paths.split sep s).
Qed.

Lemma split_segments_free (sep : ascii) (s : string) :
  Forall (fun seg => Paths.occurs sep seg = false) (Paths.split sep s).
Proof.
  induction s as [| c s IH]; simpl; [by repeat constructor |].
  destruct (Ascii.eqb c sep) eqn:E; [by constructor |].
  destruct (Paths.split sep s) as [| seg segs]; [by repeat constructor; simpl; rewrite E |].
  apply Forall_cons in IH as [Hseg Hsegs].
  constructor; [simpl; by rewrite E | exact Hsegs].
Qed.

Lemma pop_split_free (sep : ascii) (s : string) :
  Paths.occurs sep (Paths.pop (Paths.split sep s)) = false.
Proof.
  pose proof (split_segments_free sep s) as Hall.
  pose proof (split_not_nil sep s) as Hne.
  unfold Paths.pop. destruct (exists_last Hne) as (l & e & Heq).
  rewrite Heq in *. rewrite last_last. apply Forall_app in Hall as [_ He].
  by apply Forall_cons in He as [He _].
Qed.

Lemma pop_split_suffix (sep : ascii) (stem ext : string) :
  Paths.occurs sep ext = false ->
  Paths.pop (Paths.split sep (stem +:+ String sep ext)) = ext.
Proof.
  intros He. rewrite split_app_sep, (split_free sep ext He).
  unfold Paths.pop. apply last_last.
Qed.

(** The extension [generateUniqueFilename] keeps is the text after the
    last dot of the original name, and holds no dot itself; a name
    without a dot is taken whole as the extension.  The generated name
    ends in a dot followed by that extension, so generating a name from a
    generated name keeps the extension. *)
Theorem generated_filename_keeps_the_extension
    (timestamp : Z) (randomString originalName : string) :
  let extension := Paths.pop (Paths.split "." originalName) in
  let generated :=
    Paths.generateUniqueFilename timestamp randomString originalName in
  Paths.occurs "." extension = false
  /\ (Paths.occurs "." originalName = false -> extension = originalName)
  /\ (forall stem ext,
        originalName = stem +:+ "." +:+ ext ->
        Paths.occurs "." ext = false -> extension = ext)
  /\ Paths.pop (Paths.split "." generated) = extension.
Proof.
  cbn zeta. split; [apply pop_split_free |]. split; [| split].
  - intros H. by rewrite split_free.
  - intros stem ext -> He. by apply pop_split_suffix.
  - unfold Paths.generateUniqueFilename.
    set (ext := Paths.pop (Paths.split "." originalName)).
    replace (pretty timestamp +:+ "_" +:+ randomString +:+ "." +:+ ext)
      with ((pretty timestamp +:+ "_" +:+ randomString) +:+ String "." ext)
      by (by rewrite !append_assoc).
    apply (pop_split_suffix "."). apply pop_split_free.
Qed.

Lemma generated_filename_keeps_the_extension_witness :
  Paths.pop (Paths.split "." "holiday.photo.jpeg") = "jpeg"
  /\ Paths.pop (Paths.split "." "README") = "README".
Proof.
  destruct (generated_filename_keeps_the_extension 0 "abc123" "holiday.photo.jpeg")
    as (_ & _ & H1 & _).
  destruct (generated_filename_keeps_the_extension 0 "abc123" "README")
    as (_ & H2 & _).
  split; [apply (H1 "holiday.photo"); reflexivity | apply H2; reflexivity].
Defined.

Example generated_filenames :
  Paths.generateUniqueFilename 1700000000000 "k3x9qa" "milk.png"
  = "1700000000000_k3x9qa.png"
  /\ Paths.generateUniqueFilename 1700000000000 "k3x9qa" "README"
     = "1700000000000_k3x9qa.README"
  /\ Paths.generateUniqueFilename 1700000000000 "k3x9qa" "archive."
     = "1700000000000_k3x9qa.".
Proof. vm_compute. by repeat split. Qed.

(** The path [handleAvatarUpload] removes is the path the avatar was
    uploaded under: when the stored URL is some prefix, a slash and the
    upload path, and neither the user id nor the file name holds a slash,
    the last two segments of the URL are that path. *)
Theorem old_avatar_path_is_the_upload_path (prefix uid filename : string) :
  Paths.occurs "/" uid = false ->
  Paths.occurs "/" filename = false ->
  Paths.oldPath (prefix +:+ "/" +:+ Paths.filePath uid filename)
  = Paths.filePath uid filename.
Proof.
  intros Hu Hf. unfold Paths.oldPath, Paths.filePath.
  change (prefix +:+ "/" +:+ uid +:+ "/" +:+ filename)
    with (prefix +:+ String "/" (uid +:+ String "/" filename)).
  rewrite !split_app_sep, (split_free "/" uid Hu), (split_free "/" filename Hf).
  unfold Paths.slice_last. rewrite !length_app. simpl length.
  replace (length (Paths.split "/" prefix) + (1 + 1) - 2)%nat
    with (length (Paths.split "/" prefix) + 0)%nat by lia.
  rewrite drop_app_add. reflexivity.
Qed.

Lemma old_avatar_path_is_the_upload_path_witness :
  Paths.oldPath
    "https://project.example/storage/v1/object/public/avatars/u1/1700000000000_k3x9qa.png"
  = "u1/1700000000000_k3x9qa.png".
Proof.
  apply (old_avatar_path_is_the_upload_path
           "https://project.example/storage/v1/object/public/avatars"
           "u1" "1700000000000_k3x9qa.png"); reflexivity.
Defined.

(** ** Blanks around what is typed *)

Lemma drop_while_spaces (l s : list N) :
  Forall (fun c => Text.isSpace c = true) l ->
  match s with [] => True | c :: _ => Text.isSpace c = false end ->
  Text.drop_while Text.isSpace (l ++ s) = s.
Proof.
  induction 1 as [| x l Hx _ IH]; intros Hs; simpl.
  - destruct s as [| c s]; [reflexivity |]. simpl. by rewrite Hs.
  - rewrite Hx. by apply IH.
Qed.

Lemma trim_padded (l e r : list N) :
  Forall (fun c => Text.isSpace c = true) l ->
  Forall (fun c => Text.isSpace c = true) r ->
  Forall (fun c => Text.isSpace c = false) e ->
  e <> [] ->
  Text.trim (l ++ e ++ r) = e.
Proof.
  intros Hl Hr He Hne. unfold Text.trim.
  rewrite drop_while_spaces; [| exact Hl |].
  - rewrite rev_app_distr, drop_while_spaces.
    + apply rev_involutive.
    + apply Forall_forall. intros c Hc. rewrite Forall_forall in Hr.
      apply Hr. apply list_elem_of_In. apply list_elem_of_In, in_rev in Hc.
      exact Hc.
    + destruct (rev e) as [| c s] eqn:E; [done |].
      rewrite Forall_forall in He. apply He. apply list_elem_of_In, in_rev.
      rewrite E. by left.
  - destruct e as [| c e]; [done |]. simpl.
    by apply Forall_cons in He as [Hc _].
Qed.

Lemma trim_blank (s : list N) :
  Forall (fun c => Text.isSpace c = true) s -> Text.trim s = [].
Proof.
  intros Hs. unfold Text.trim.
  replace s with (s ++ []) by apply app_nil_r.
  by rewrite drop_while_spaces.
Qed.

(** Blanks typed around an address that [isValidEmail] accepts are
    dropped before it is checked and sent: the login handler asks the
    service with the address itself.  A name made of blanks only is
    refused by the signup handler, which sends nothing. *)
Theorem surrounding_blanks_are_dropped
    (l e r password : list N) (res : Auth.SignInResult) (pg : Auth.AuthPage) :
  Forall (fun c => Text.isSpace c = true) l ->
  Forall (fun c => Text.isSpace c = true) r ->
  Checks.isValidEmail e = true ->
  Text.trim (l ++ e ++ r) = e
  /\ Auth.auth_calls (Auth.loginSubmit (l ++ e ++ r) password res pg)
     = Auth.auth_calls pg ++ [Auth.SignInWithPassword e password]
  /\ forall email_value password_value confirm_value res',
       Auth.signupSubmit l email_value password_value confirm_value res' pg
       = Auth.show_error "Please enter your name" pg.
Proof.
  intros Hl Hr He.
  assert (Text.trim (l ++ e ++ r) = e) as Htrim.
  { apply trim_padded; try assumption.
    - apply test_lang, emailRegex_lang in He
        as (a & b & c & -> & _ & _ & _ & Hall).
      rewrite !Forall_app in Hall. destruct Hall as (Ha & Hb & Hc).
      apply notSpaceAt_filter_at in Ha as [_ Sa], Hb as [_ Sb], Hc as [_ Sc].
      rewrite !Forall_app. repeat split; try assumption; by repeat constructor.
    - intros ->. discriminate. }
  split; [exact Htrim |]. split.
  - unfold Auth.loginSubmit. cbn zeta. rewrite Htrim, He. cbn [negb].
    destruct res as [m | c]; [reflexivity |].
    by destruct (negb (Auth.confirmed c)).
  - intros. unfold Auth.signupSubmit. cbn zeta. by rewrite (trim_blank l Hl).
Qed.

Lemma surrounding_blanks_are_dropped_witness :
  Text.trim (Text.units "  " ++ Text.units "alice@example.org" ++ Text.units " ")
  = Text.units "alice@example.org".
Proof.
  apply (surrounding_blanks_are_dropped (Text.units "  ")
           (Text.units "alice@example.org") (Text.units " ") []
           (Auth.SignInError None)
           (Auth.mkAuthPage "" false "" false false false false false [] [] None)).
  - by repeat constructor.
  - by repeat constructor.
  - reflexivity.
Defined.

(** ** Saving the profile and the notification switch *)

(** Every submission of the profile form shows exactly one toast and
    leaves the save button released, also when the name is refused.  The
    update is sent exactly when the trimmed name is not empty, with the
    trimmed name; the success toast appears only when it was sent and
    answered without error. *)
Theorem profile_save_shows_one_toast_and_releases_button
    (uid : string) (name_value : list N) (error : option string)
    (pg : Profile.ProfilePage) :
  let pg' := Profile.saveProfile uid name_value error pg in
  let name := Text.trim name_value in
  Profile.saving pg' = false
  /\ Profile.profile_calls pg'
     = Profile.profile_calls pg
       ++ (if (length name =? 0)%nat then [] else [Profile.UpdateName uid name])
  /\ exists message type,
       Profile.profile_toasts pg'
       = Profile.profile_toasts pg ++ [(message, type)]
       /\ (type = "success" <-> name <> [] /\ error = None).
Proof.
  unfold Profile.saveProfile. cbn zeta.
  destruct (Text.trim name_value) as [| c name]; simpl.
  - rewrite app_nil_r. repeat split. eexists _, _. split; [reflexivity |].
    split; [discriminate | by intros [? _]].
  - destruct error as [e |]; simpl; repeat split; eexists _, _;
      (split; [reflexivity |]); split; try discriminate; try done.
    by intros [_ ?].
Qed.

Lemma profile_save_shows_one_toast_and_releases_button_witness :
  Profile.profile_toasts
    (Profile.saveProfile "u1" (Text.units " Alice ") None
       (Profile.mkProfilePage false [] []))
  = [("Profile updated successfully", "success")].
Proof.
  destruct (profile_save_shows_one_toast_and_releases_button "u1"
              (Text.units " Alice ") None (Profile.mkProfilePage false [] []))
    as (_ & _ & message & type & Htoasts & _).
  rewrite Htoasts. vm_compute in Htoasts. by injection Htoasts as <- <-.
Defined.

(** Switching notifications on leaves the box checked exactly when the
    permission request returned [true], and the status line then reads
    that notifications are enabled.  Switching them off changes nothing
    but the box: the module's permission stays as it was, so with
    permission granted the scans keep raising notifications. *)
Theorem notification_switch_only_asks
    (checked : bool) (b : Scheduling.Browser) (st : Notifier) :
  let t := Profile.handleNotificationToggle checked b st in
  (checked = false ->
   Profile.notifier_after t = st /\ Profile.toast_shown t = None
   /\ Profile.checked_after t = false
   /\ forall title body tg ri,
        showNotification title body tg ri (Profile.notifier_after t)
        = showNotification title body tg ri st)
  /\ (checked = true ->
      Profile.checked_after t
      = fst (Scheduling.requestNotificationPermission b st)
      /\ Profile.notifier_after t
         = snd (Scheduling.requestNotificationPermission b st)
      /\ (Profile.checked_after t = true ->
          Profile.status_after t = "Notifications are enabled"
          /\ Profile.toast_shown t = Some ("Notifications enabled", "success"))
      /\ (Profile.checked_after t = false ->
          Profile.toast_shown t
          = Some ("Notification permission denied", "error"))).
Proof.
  destruct checked; simpl; split; try discriminate; intros _;
    [| by repeat split].
  unfold Profile.handleNotificationToggle,
    Scheduling.requestNotificationPermission, Profile.statusLine,
    Profile.asked, Scheduling.getNotificationStatus.
  destruct (Scheduling.supported b) eqn:Hs, (Scheduling.permission b) eqn:Hp,
    (Scheduling.answer b) eqn:Ha; simpl; rewrite ?Hs, ?Hp; simpl;
    repeat split; try done; discriminate.
Qed.

Lemma notification_switch_only_asks_witness :
  Profile.notifier_after
    (Profile.handleNotificationToggle false
       (Scheduling.mkBrowser true granted granted) (mkNotifier granted []))
  = mkNotifier granted [].
Proof.
  destruct (notification_switch_only_asks false
              (Scheduling.mkBrowser true granted granted) (mkNotifier granted []))
    as [H _].
  by apply H.
Defined.

(** ** Loading again *)

Lemma run_app (ops1 ops2 : list Op) (st : Page) :
  run (ops1 ++ ops2) st = run ops2 (run ops1 st).
Proof. unfold run. apply fold_left_app. Qed.

(** A load that succeeds replaces the collection by the rows delivered,
    whatever events were applied before (duplicates piled up by repeated
    INSERT events are gone); a response without data empties it; a load
    that fails keeps the collection and shows an error toast. *)
Lemma reload_replaces_the_collection (ops : list Op) (st : Page) :
  (forall rows,
     items (run (ops ++ [Reload (SelectData (Some rows))]) st) = rows)
  /\ items (run (ops ++ [Reload (SelectData None)]) st) = []
  /\ (forall message,
        items (run (ops ++ [Reload (SelectError message)]) st)
        = items (run ops st)
        /\ toasts (run (ops ++ [Reload (SelectError message)]) st)
           = toasts (run ops st) ++ [("Failed to load items", "error")]).
Proof.
  split; [| split]; intros; rewrite ?run_app; try reflexivity.
  by split.
Qed.

(** Events and loads never write to the remote store and never change
    the signed-in user; each of them shows at most one toast. *)
Lemma feed_never_writes_remotely (ops : list Op) (st : Page) :
  remote_calls (run ops st) = remote_calls st
  /\ currentUser (run ops st) = currentUser st
  /\ exists new,
       toasts (run ops st) = toasts st ++ new
       /\ (length new <= length ops)%nat.
Proof.
  revert st. induction ops as [| op ops IH]; intros st.
  - repeat split. exists []. by rewrite app_nil_r.
  - simpl. destruct (IH (step op st)) as (Hr & Hu & new & Hn & Hl).
    assert (remote_calls (step op st) = remote_calls st
            /\ currentUser (step op st) = currentUser st
            /\ exists one, toasts (step op st) = toasts st ++ one
                           /\ (length one <= 1)%nat)
      as (Hr1 & Hu1 & one & Hn1 & Hl1).
    { assert (exists one : list (string * string),
                 toasts st = toasts st ++ one /\ (length one <= 1)%nat) as Hsame.
      { exists []. rewrite app_nil_r. simpl. auto. }
      destruct op as [[[rows |] | msg] | [r | r | x]]; simpl;
        try (repeat split; [exact Hsame]);
        try (repeat split; eexists [_]; split; [reflexivity | simpl; lia]).
      unfold findIndex.
      destruct (negb (findIndex_from _ (items st) 0 =? -1)); simpl;
        repeat split; (exact Hsame)
                      || (eexists [_]; split; [reflexivity | simpl; lia]). }
    rewrite Hr, Hu, Hn, Hr1, Hu1, Hn1. repeat split.
    exists (one ++ new). rewrite app_assoc. split; [reflexivity |].
    rewrite length_app. lia.
Qed.
